(** * Quake-Alert-Web: the zone-alert pipeline of [App.tsx]

    A shallow embedding of the alert evaluation ([checkZoneAlerts]), the two
    sound monitors, the zone store operations of [App.tsx] and the zone form
    of [components/MapView.tsx] ([saveZone]), with the properties the
    specification states about them.

    Conventions.
    - A JavaScript [number] is an IEEE-754 binary64 value: Rocq's primitive
      [float].  The relational operators are the primitive comparisons, so
      every comparison with NaN is [false], as in JavaScript.
    - A JavaScript [string] is a [string]; template literals are
      concatenations.
    - React state read by a function through its closure ([activeAlerts],
      [minAlertMag], the sound settings) is an explicit argument; a state
      setter called with an updater ([setActiveAlerts(prev => ...)]) is the
      updater itself, a function of [prev].
    - [Date.now()] is the argument [now]. *)

From Stdlib Require Import List Ascii String Bool Arith ZArith Lia.
From Stdlib Require Import Floats.
Import ListNotations.

Set Implicit Arguments.
(* Decimal literals such as [0.3] denote the nearest binary64 value, as in
   JavaScript. *)
Set Warnings "-inexact-float".

(* ------------------------------------------------------------------ *)
(** * JavaScript numbers *)

Definition number : Set := float.
Bind Scope float_scope with number.

Module JSNumber.

(** [x < y], [x <= y], [x >= y], [x > y] and [x === y] on numbers. *)
Definition lt (x y : number) : bool := PrimFloat.ltb x y.
Definition le (x y : number) : bool := PrimFloat.leb x y.
Definition ge (x y : number) : bool := PrimFloat.leb y x.
Definition gt (x y : number) : bool := PrimFloat.ltb y x.
Definition strictEq (x y : number) : bool := PrimFloat.eqb x y.

End JSNumber.

(* ------------------------------------------------------------------ *)
(** * The data model of [types.ts] *)

(** [EarthquakeFeature]: the fields the pipeline reads.  The remaining
    properties of the feed ([updated], [url], [sig], ...) are never read by
    the functions embedded here. *)
Module Feature.
Record Properties : Set := { mag : number; place : string; time : number }.
(** [coordinates: [number, number, number]] is longitude, latitude, depth. *)
Record Geometry : Set := { coordinates : number * number * number }.
Record EarthquakeFeature : Set :=
  { properties : Properties; geometry : Geometry; id : string }.

Definition coordinates0 (g : Geometry) : number := fst (fst (coordinates g)).
Definition coordinates1 (g : Geometry) : number := snd (fst (coordinates g)).
End Feature.
Abbreviation EarthquakeFeature := Feature.EarthquakeFeature.

(** [AlertZone]; the optional [isVisible?: boolean] is [None] when the
    property is absent or [undefined]. *)
Module Zone.
Record AlertZone : Set :=
  { id : string; name : string; lat : number; lng : number;
    radiusKm : number; isVisible : option bool }.
End Zone.
Abbreviation AlertZone := Zone.AlertZone.

Module Alert.
Record AlertNotification : Set :=
  { id : string; quakeId : string; zoneId : string; zoneName : string;
    quakePlace : string; mag : number; timestamp : number }.
End Alert.
Abbreviation AlertNotification := Alert.AlertNotification.

(* ------------------------------------------------------------------ *)
(** * [checkZoneAlerts] ([App.tsx]) *)

Section Evaluation.

(** [calculateDistance] is imported from [utils/geoUtils], which is not
    among the sources; the evaluation is embedded over an arbitrary
    distance function of the four coordinates. *)
Variable calculateDistance : number -> number -> number -> number -> number.

(** [24 * 60 * 60 * 1000] *)
Definition dayMs : number := (24 * 60 * 60 * 1000)%float.

(** [`${quake.id}-${zone.id}`] *)
Definition alertId (quake : EarthquakeFeature) (zone : AlertZone) : string :=
  (Feature.id quake ++ "-" ++ Zone.id zone)%string.

(** The object literal pushed onto [newAlerts]. *)
Definition mkAlert (quake : EarthquakeFeature) (zone : AlertZone)
  : AlertNotification :=
  {| Alert.id := alertId quake zone;
     Alert.quakeId := Feature.id quake;
     Alert.zoneId := Zone.id zone;
     Alert.zoneName := Zone.name zone;
     Alert.quakePlace := Feature.place (Feature.properties quake);
     Alert.mag := Feature.mag (Feature.properties quake);
     Alert.timestamp := Feature.time (Feature.properties quake) |}.

(** The closure of one call: the state captured at render time and the
    clock value read on entry. *)
Variable now : number.
Variable minAlertMag : number.
Variable activeAlerts : list AlertNotification.

Definition oneDayAgo : number := (now - dayMs)%float.

(** The body of [currentZones.forEach(zone => ...)] as a step on the
    mutable array [newAlerts]. *)
Definition zoneStep (quake : EarthquakeFeature)
    (newAlerts : list AlertNotification) (zone : AlertZone)
  : list AlertNotification :=
  let dist :=
    calculateDistance (Zone.lat zone) (Zone.lng zone)
      (Feature.coordinates1 (Feature.geometry quake))
      (Feature.coordinates0 (Feature.geometry quake)) in
  if JSNumber.le dist (Zone.radiusKm zone) then
    let alertId := alertId quake zone in
    let exists_ :=
      find (fun a => String.eqb (Alert.id a) alertId) activeAlerts in
    match exists_ with
    | None => newAlerts ++ [mkAlert quake zone]
    | Some _ => newAlerts
    end
  else newAlerts.

(** The body of [quakes.forEach(quake => ...)]. *)
Definition quakeStep (currentZones : list AlertZone)
    (newAlerts : list AlertNotification) (quake : EarthquakeFeature)
  : list AlertNotification :=
  if JSNumber.lt (Feature.mag (Feature.properties quake)) minAlertMag
  then newAlerts
  else if JSNumber.lt (Feature.time (Feature.properties quake)) oneDayAgo
  then newAlerts
  else fold_left (zoneStep quake) currentZones newAlerts.

(** The three tests a pair goes through before the dedup lookup, and
    the lookup itself, named for the statements below. *)
Definition belowThreshold (quake : EarthquakeFeature) : bool :=
  JSNumber.lt (Feature.mag (Feature.properties quake)) minAlertMag.

Definition tooOld (quake : EarthquakeFeature) : bool :=
  JSNumber.lt (Feature.time (Feature.properties quake)) oneDayAgo.

Definition distanceTo (zone : AlertZone) (quake : EarthquakeFeature)
  : number :=
  calculateDistance (Zone.lat zone) (Zone.lng zone)
    (Feature.coordinates1 (Feature.geometry quake))
    (Feature.coordinates0 (Feature.geometry quake)).

Definition insideZone (quake : EarthquakeFeature) (zone : AlertZone)
  : bool :=
  JSNumber.le (distanceTo zone quake) (Zone.radiusKm zone).

Definition alreadyAlerted (id : string) : bool :=
  match find (fun a => String.eqb (Alert.id a) id) activeAlerts with
  | Some _ => true
  | None => false
  end.

(** The value of the local array [newAlerts] when the function reaches
    its last statement, and [[]] when it returned early. *)
Definition newAlertsOf (quakes : list EarthquakeFeature)
    (currentZones : list AlertZone) : list AlertNotification :=
  if (List.length currentZones =? 0) || (List.length quakes =? 0) then []
  else fold_left (quakeStep currentZones) quakes [].

(** [checkZoneAlerts(quakes, currentZones)]: the update it applies to the
    [activeAlerts] state, [prev => [...newAlerts, ...prev]], or none. *)
Definition checkZoneAlerts (quakes : list EarthquakeFeature)
    (currentZones : list AlertZone) (prev : list AlertNotification)
  : list AlertNotification :=
  if (List.length currentZones =? 0) || (List.length quakes =? 0) then prev
  else
    let newAlerts := fold_left (quakeStep currentZones) quakes [] in
    if 0 <? List.length newAlerts then newAlerts ++ prev else prev.

End Evaluation.

(** [dismissAlert(id)]: [prev => prev.filter(a => a.id !== id)]. *)
Definition dismissAlert (id : string) (prev : list AlertNotification)
  : list AlertNotification :=
  filter (fun a => negb (String.eqb (Alert.id a) id)) prev.

(** The two call sites of [setActiveAlerts]: the merge at the end of
    [checkZoneAlerts] (with the closure it ran in) and [dismissAlert]. *)
Inductive AlertsAction : Set :=
| CheckZoneAlerts (now minAlertMag : number)
    (captured : list AlertNotification)
    (quakes : list EarthquakeFeature) (currentZones : list AlertZone)
| DismissAlert (id : string).

Definition applyAlertsAction
    (calculateDistance : number -> number -> number -> number -> number)
    (action : AlertsAction) (prev : list AlertNotification)
  : list AlertNotification :=
  match action with
  | CheckZoneAlerts now minAlertMag captured quakes currentZones =>
      checkZoneAlerts calculateDistance now minAlertMag captured
        quakes currentZones prev
  | DismissAlert id => dismissAlert id prev
  end.

(** One evaluation cycle as the component sees it: the closure holds the
    collection that is current when the check runs. *)
Definition evaluationCycle
    (calculateDistance : number -> number -> number -> number -> number)
    (now minAlertMag : number) (quakes : list EarthquakeFeature)
    (currentZones : list AlertZone) (activeAlerts : list AlertNotification)
  : list AlertNotification :=
  checkZoneAlerts calculateDistance now minAlertMag activeAlerts
    quakes currentZones activeAlerts.

(* ------------------------------------------------------------------ *)
(** * The sound and voice monitors ([App.tsx]) *)

(** JavaScript truthiness of a [string | null] and of a [string]. *)
Definition truthyString (s : string) : bool := negb (String.eqb s "").
Definition truthyRef (r : option string) : bool :=
  match r with
  | Some s => truthyString s
  | None => false
  end.

(** [s.includes(sub)] *)
Fixpoint includes (s sub : string) : bool :=
  String.prefix sub s ||
  match s with
  | EmptyString => false
  | String _ s' => includes s' sub
  end.

(** The part of the browser the monitors touch.  [speechSynthesis] is
    [None] when ['speechSynthesis' in window] is false and otherwise holds
    the list [getVoices()] returns; [audioContext] tells whether building
    and starting the oscillator graph succeeds ([false]: it throws, and the
    [catch] logs). *)
Record SpeechSynthesisVoice : Set := { lang : string }.
Record Window : Set :=
  { speechSynthesis : option (list SpeechSynthesisVoice);
    audioContext : bool }.

Record SpeechSynthesisUtterance : Set :=
  { text : string; utteranceVolume : number; rate : number; pitch : number;
    voice : option SpeechSynthesisVoice }.

(** What the monitors do to the outside world, in order. *)
Inductive Effect : Set :=
| SpeechCancel
| SpeechSpeak (utterance : SpeechSynthesisUtterance)
| AlertSiren (maxGain : number)
| SignificantQuakeSound (maxGain : number)
| ConsoleError (message : string).

Definition isSpeak (e : Effect) : bool :=
  match e with
  | SpeechSpeak _ => true
  | _ => false
  end.

Definition isQuakeSound (e : Effect) : bool :=
  match e with
  | SignificantQuakeSound _ => true
  | _ => false
  end.

(** The settings state read by the sound functions. *)
Record Settings : Set :=
  { isSoundEnabled : bool; volume : number; sirenEnabled : bool;
    quakeSoundEnabled : bool; voiceAlertEnabled : bool }.

Section Monitors.

(** [`${latestAlert.mag}`]: the built-in conversion of a number to a
    string. *)
Variable numberToString : number -> string.
Variable window : Window.
Variable settings : Settings.

Definition speakAlert (text : string) : list Effect :=
  match speechSynthesis window with
  | None => []
  | Some voices =>
      let banglaVoice := find (fun v => includes (lang v) "bn") voices in
      [ SpeechCancel;
        SpeechSpeak {| text := text;
                       utteranceVolume := volume settings;
                       rate := 1.0%float; pitch := 1.0%float;
                       voice := banglaVoice |} ]
  end.

Definition playAlertSiren : list Effect :=
  if negb (isSoundEnabled settings) || negb (sirenEnabled settings) then []
  else if audioContext window
       then [AlertSiren (0.3 * volume settings)%float]
       else [ConsoleError "Audio play failed"].

Definition playSignificantQuakeSound : list Effect :=
  if negb (isSoundEnabled settings) || negb (quakeSoundEnabled settings)
  then []
  else if audioContext window
       then [SignificantQuakeSound (0.3 * volume settings)%float]
       else [ConsoleError "Audio play failed"].

(** The template literal spoken for an alert. *)
Definition alertText (latestAlert : AlertNotification) : string :=
  ("সতর্কতা! " ++ Alert.zoneName latestAlert ++ " এলাকায় "
     ++ numberToString (Alert.mag latestAlert)
     ++ " মাত্রার ভূমিকম্প শনাক্ত হয়েছে।")%string.

(** "Monitor Alerts for Sound & Voice": one run of the effect, from the
    value of the ref [prevAlertCount] to its effects and the new value. *)
Definition alertMonitor (activeAlerts : list AlertNotification)
    (prevAlertCount : nat) : list Effect * nat :=
  ( (if prevAlertCount <? List.length activeAlerts then
       playAlertSiren ++
       (if voiceAlertEnabled settings && (0 <? List.length activeAlerts)
        then match activeAlerts with
             | latestAlert :: _ => speakAlert (alertText latestAlert)
             | [] => []
             end
        else [])
     else []),
    List.length activeAlerts ).

(** "Monitor New Significant Earthquakes for Sound": one run of the
    effect on the ref [prevLatestQuakeId]. *)
Definition significantQuakeMonitor (earthquakes : list EarthquakeFeature)
    (prevLatestQuakeId : option string) : list Effect * option string :=
  match earthquakes with
  | latest :: _ =>
      ( (if truthyRef prevLatestQuakeId
            && negb (match prevLatestQuakeId with
                     | Some p => String.eqb (Feature.id latest) p
                     | None => false
                     end)
         then if JSNumber.ge (Feature.mag (Feature.properties latest)) 5.5%float
              then playSignificantQuakeSound
              else []
         else []),
        Some (Feature.id latest) )
  | [] => ([], prevLatestQuakeId)
  end.

End Monitors.

(* ------------------------------------------------------------------ *)
(** * The zone store ([App.tsx]) and the zone form ([MapView.tsx]) *)

(** [addZone]: [prev => [...prev, { ...zone, isVisible: true }]] *)
Definition addZone (zone : AlertZone) (prev : list AlertZone)
  : list AlertZone :=
  prev ++ [ {| Zone.id := Zone.id zone; Zone.name := Zone.name zone;
               Zone.lat := Zone.lat zone; Zone.lng := Zone.lng zone;
               Zone.radiusKm := Zone.radiusKm zone;
               Zone.isVisible := Some true |} ].

(** [updateZone]: [prev => prev.map(z => z.id === updatedZone.id ? updatedZone : z)] *)
Definition updateZone (updatedZone : AlertZone) (prev : list AlertZone)
  : list AlertZone :=
  map (fun z => if String.eqb (Zone.id z) (Zone.id updatedZone)
                then updatedZone else z) prev.

(** [toggleZoneVisibility]: [isVisible: z.isVisible === false ? true : false] *)
Definition toggleZoneVisibility (id : string) (prev : list AlertZone)
  : list AlertZone :=
  map (fun z =>
         if String.eqb (Zone.id z) id
         then {| Zone.id := Zone.id z; Zone.name := Zone.name z;
                 Zone.lat := Zone.lat z; Zone.lng := Zone.lng z;
                 Zone.radiusKm := Zone.radiusKm z;
                 Zone.isVisible :=
                   Some (match Zone.isVisible z with
                         | Some false => true
                         | _ => false
                         end) |}
         else z) prev.

(** [deleteZone]: [prev => prev.filter(z => z.id !== id)] *)
Definition deleteZone (id : string) (prev : list AlertZone) : list AlertZone :=
  filter (fun z => negb (String.eqb (Zone.id z) id)) prev.

(** The modal state [saveZone] reads. *)
Record ZoneForm : Set :=
  { tempZoneLoc : option (number * number);   (* { lat, lng } | null *)
    newZoneName : string;
    newZoneRadius : number;
    editingZoneId : option string }.

(** The callback [saveZone] invokes on the application. *)
Inductive ZoneCallback : Set :=
| OnUpdateZone (zone : AlertZone)
| OnAddZone (zone : AlertZone).

Section ZoneModal.

Variable numberToString : number -> string.   (* [Date.now().toString()] *)
Variable now : number.
Variable zones : list AlertZone.              (* the [zones] prop *)

(** [saveZone] of [MapView.tsx]; [None] when the guard
    [tempZoneLoc && newZoneName] fails and nothing is called. *)
Definition saveZone (form : ZoneForm) : option ZoneCallback :=
  match tempZoneLoc form with
  | Some (lat, lng) =>
      if truthyString (newZoneName form) then
        match editingZoneId form with
        | Some editing =>
            if truthyString editing then
              let existing :=
                find (fun z => String.eqb (Zone.id z) editing) zones in
              Some (OnUpdateZone
                      {| Zone.id := editing;
                         Zone.name := newZoneName form;
                         Zone.lat := lat; Zone.lng := lng;
                         Zone.radiusKm := newZoneRadius form;
                         Zone.isVisible :=
                           match existing with
                           | Some z => Zone.isVisible z
                           | None => None
                           end |})
            else
              Some (OnAddZone
                      {| Zone.id := numberToString now;
                         Zone.name := newZoneName form;
                         Zone.lat := lat; Zone.lng := lng;
                         Zone.radiusKm := newZoneRadius form;
                         Zone.isVisible := Some true |})
        | None =>
            Some (OnAddZone
                    {| Zone.id := numberToString now;
                       Zone.name := newZoneName form;
                       Zone.lat := lat; Zone.lng := lng;
                       Zone.radiusKm := newZoneRadius form;
                       Zone.isVisible := Some true |})
        end
      else None
  | None => None
  end.

End ZoneModal.

(** The application's handlers behind the two callbacks
    ([onAddZone={addZone}], [onUpdateZone={updateZone}]). *)
Definition applyZoneCallback (callback : option ZoneCallback)
    (prev : list AlertZone) : list AlertZone :=
  match callback with
  | Some (OnUpdateZone zone) => updateZone zone prev
  | Some (OnAddZone zone) => addZone zone prev
  | None => prev
  end.

(** A zone with its visibility flag replaced, the other fields kept. *)
Definition withVisibility (v : option bool) (z : AlertZone) : AlertZone :=
  {| Zone.id := Zone.id z; Zone.name := Zone.name z;
     Zone.lat := Zone.lat z; Zone.lng := Zone.lng z;
     Zone.radiusKm := Zone.radiusKm z; Zone.isVisible := v |}.

(** Two zones that differ at most in [isVisible]. *)
Definition sameButVisibility (z z' : AlertZone) : Prop :=
  withVisibility None z = withVisibility None z'.

(* ------------------------------------------------------------------ *)
(** * Concrete data for the examples *)

Module Examples.

(** Modelled from the spec: [utils/geoUtils.ts], which defines
    [calculateDistance], is not among the sources.  The specification
    (4.1) describes it as the great-circle (haversine) distance on a
    sphere of radius 6371 km, symmetric and 0 when the two points are
    identical.  Binary64 offers no trigonometry here, so the examples run
    on the small-angle form of that distance, R * (pi/180) * sqrt(dLat^2 +
    dLon^2), which is symmetric and 0 at identical points too.  It only
    serves to instantiate the examples: every theorem below holds for an
    arbitrary distance function. *)
Definition flatDistance (lat1 lon1 lat2 lon2 : number) : number :=
  (111.19492664455873
   * sqrt ((lat2 - lat1) * (lat2 - lat1) + (lon2 - lon1) * (lon2 - lon1)))%float.

Definition now : number := 1700000000000%float.

(** The default [minAlertMag]. *)
Definition threshold : number := 3.0.

Definition dhaka : AlertZone :=
  {| Zone.id := "1699990000000"; Zone.name := "Dhaka";
     Zone.lat := 23.81; Zone.lng := 90.41; Zone.radiusKm := 50;
     Zone.isVisible := Some true |}.

Definition hiddenDhaka : AlertZone := withVisibility (Some false) dhaka.

Definition mkQuake (id : string) (mag time lat lng : number)
  : EarthquakeFeature :=
  {| Feature.properties :=
       {| Feature.mag := mag; Feature.place := "Dhaka, Bangladesh";
          Feature.time := time |};
     Feature.geometry := {| Feature.coordinates := (lng, lat, 10%float) |};
     Feature.id := id |}.

(** One second old, at the centre of the zone. *)
Definition fresh : EarthquakeFeature :=
  mkQuake "us7000fresh" 4.0 1699999999000 23.81 90.41.

(** Exactly 24 hours old ([now - 86400000]), at the centre of the zone. *)
Definition dayOld : EarthquakeFeature :=
  mkQuake "us7000dayold" 4.0 1699913600000 23.81 90.41.

(** A strong event, one second old, at the centre of the zone. *)
Definition strong : EarthquakeFeature :=
  mkQuake "us7000strong" 6.1 1699999999000 23.81 90.41.

(** A zone on the equator and an event one degree north of its centre:
    the distance equals the radius. *)
Definition equator : AlertZone :=
  {| Zone.id := "1699990000001"; Zone.name := "Equator";
     Zone.lat := 0; Zone.lng := 0; Zone.radiusKm := 111.19492664455873;
     Zone.isVisible := None |}.

Definition onTheRim : EarthquakeFeature :=
  mkQuake "us7000rim" 4.0 1699999999000 1 0.

Definition settings : Settings :=
  {| isSoundEnabled := true; volume := 1.0; sirenEnabled := true;
     quakeSoundEnabled := true; voiceAlertEnabled := true |}.

(** A browser with speech synthesis (one Bangla voice) and audio. *)
Definition browser : Window :=
  {| speechSynthesis := Some [ {| lang := "en-US" |}; {| lang := "bn-BD" |} ];
     audioContext := true |}.

(** A browser without the speech synthesis interface. *)
Definition muteBrowser : Window :=
  {| speechSynthesis := None; audioContext := true |}.

(** A rendering of numbers, for the spoken text of the examples. *)
Definition showNumber (x : number) : string :=
  if PrimFloat.eqb x 4.0 then "4" else "6.1".

End Examples.

(* ------------------------------------------------------------------ *)
(** * The rest of the pipeline: [Math], the map, the zone form, the list *)

(** [Math.max], [Math.min] and the global [isNaN] on numbers.  A NaN
    argument gives NaN; of two equal arguments (the zeros) [max] prefers
    [+0] and [min] prefers [-0]. *)
Module JSMath.

Definition isNaN (x : number) : bool := negb (PrimFloat.eqb x x).

Definition max (a b : number) : number :=
  if isNaN a || isNaN b then nan
  else if PrimFloat.ltb a b then b
  else if PrimFloat.ltb b a then a
  else if get_sign a then b else a.

Definition min (a b : number) : number :=
  if isNaN a || isNaN b then nan
  else if PrimFloat.ltb a b then a
  else if PrimFloat.ltb b a then b
  else if get_sign a then a else b.

(** [Math.max(...values)]; [-Infinity] for no argument. *)
Definition maxOf (values : list number) : number :=
  fold_left max values neg_infinity.

End JSMath.

(** [isZoneAlerted] and [isQuakeAlerted] of [MapView.tsx]:
    [activeAlerts.some(a => a.zoneId === zoneId)]. *)
Definition isZoneAlerted (activeAlerts : list AlertNotification)
    (zoneId : string) : bool :=
  existsb (fun a => String.eqb (Alert.zoneId a) zoneId) activeAlerts.

Definition isQuakeAlerted (activeAlerts : list AlertNotification)
    (quakeId : string) : bool :=
  existsb (fun a => String.eqb (Alert.quakeId a) quakeId) activeAlerts.

(** [createCustomIcon(mag, isAlert, useAnimation)] of [MapView.tsx]: the
    values its [L.divIcon] is built from.  The [html] option, a template
    over [color], [finalSize] and [pulseClass], is left out. *)
Record MarkerIcon : Set :=
  { color : string; borderColor : string; pulseClass : string;
    iconSize : number * number; iconAnchor : number * number }.

Definition createCustomIcon (mag : number) (isAlert useAnimation : bool)
  : MarkerIcon :=
  let color : string :=
    (if isAlert then "#ef4444"
     else if JSNumber.ge mag 7 then "#7c3aed"
     else if JSNumber.ge mag 6 then "#dc2626"
     else if JSNumber.ge mag 5 then "#f43f5e"
     else if JSNumber.ge mag 3 then "#f59e0b"
     else "#10b981")%string in
  let size := JSMath.max 12 (JSMath.min (mag * 6) 50) in
  let finalSize := if isAlert then (size * 1.3)%float else size in
  let pulseClass : string :=
    (if useAnimation then (if isAlert then "alert-pulse" else "quake-pulse")
     else "")%string in
  {| color := color;
     borderColor := if isAlert then "#fee2e2" else "white";
     pulseClass := pulseClass;
     iconSize := (finalSize, finalSize);
     iconAnchor := (finalSize / 2, finalSize / 2)%float |}.

(** The handlers of [MapView.tsx] that write the modal state [saveZone]
    reads.  They also set the flags [isAddingZone] and [showZoneManager]
    and move the map; none of that is read by [saveZone]. *)

(** [handleEditZone(zone)] *)
Definition handleEditZone (zone : AlertZone) : ZoneForm :=
  {| tempZoneLoc := Some (Zone.lat zone, Zone.lng zone);
     newZoneName := Zone.name zone;
     newZoneRadius := Zone.radiusKm zone;
     editingZoneId := Some (Zone.id zone) |}.


(** [cancelZoneAdd()] *)
Definition cancelZoneAdd (form : ZoneForm) : ZoneForm :=
  {| tempZoneLoc := None;
     newZoneName := newZoneName form;
     newZoneRadius := newZoneRadius form;
     editingZoneId := None |}.

(** The modal state [saveZone] leaves behind: its "Cleanup" when the guard
    [tempZoneLoc && newZoneName] holds, the state as it was otherwise. *)
Definition saveZoneCleanup (form : ZoneForm) : ZoneForm :=
  match tempZoneLoc form with
  | Some _ =>
      if truthyString (newZoneName form) then
        {| tempZoneLoc := None;
           newZoneName := newZoneName form;
           newZoneRadius := newZoneRadius form;
           editingZoneId := None |}
      else form
  | None => form
  end.

(** The [onChange] of the radius number input, from [val], the result of
    [parseInt(e.target.value)]:
    [if (!isNaN(val)) setNewZoneRadius(Math.max(1, Math.min(200, val)))]. *)
Definition onRadiusInputChange (val : number) (form : ZoneForm) : ZoneForm :=
  if negb (JSMath.isNaN val) then
    {| tempZoneLoc := tempZoneLoc form;
       newZoneName := newZoneName form;
       newZoneRadius := JSMath.max 1 (JSMath.min 200 val);
       editingZoneId := editingZoneId form |}
  else form.

(** [LocationState] of [types.ts]. *)
Record LocationState : Set := { userLat : number; userLng : number }.

(** The list view ([EarthquakeList]): [toggleType] and the [stats] memo. *)

(** [toggleType(type)]:
    [prev.includes(type) ? prev.filter(t => t !== type) : [...prev, type]] *)
Definition toggleType (type : string) (prev : list string) : list string :=
  if existsb (String.eqb type) prev
  then filter (fun t => negb (String.eqb t type)) prev
  else prev ++ [type].

Record Stats : Set :=
  { maxMag : number; count : nat;
    biggest : option EarthquakeFeature;
    nearest : option EarthquakeFeature; minDist : number }.

Section ListStats.

Variable calculateDistance : number -> number -> number -> number -> number.

(** The body of the [forEach] that looks for the nearest event, on the
    pair of locals [(nearest, minDist)]. *)
Definition nearestStep (userLocation : LocationState)
    (acc : option EarthquakeFeature * number) (q : EarthquakeFeature)
  : option EarthquakeFeature * number :=
  let d :=
    calculateDistance (userLat userLocation) (userLng userLocation)
      (Feature.coordinates1 (Feature.geometry q))
      (Feature.coordinates0 (Feature.geometry q)) in
  if JSNumber.lt d (snd acc) then (Some q, d) else acc.

(** The [stats] memo; [None] is [null]. *)
Definition stats (earthquakes : list EarthquakeFeature)
    (userLocation : option LocationState) : option Stats :=
  if List.length earthquakes =? 0 then None
  else
    let maxMag :=
      JSMath.maxOf
        (map (fun q => Feature.mag (Feature.properties q)) earthquakes) in
    let biggest :=
      find (fun q => JSNumber.strictEq
                       (Feature.mag (Feature.properties q)) maxMag)
        earthquakes in
    let found :=
      match userLocation with
      | Some location =>
          fold_left (nearestStep location) earthquakes (None, infinity)
      | None => (None, infinity)
      end in
    Some {| maxMag := maxMag; count := List.length earthquakes;
            biggest := biggest;
            nearest := fst found; minDist := snd found |}.

End ListStats.

(** A run of the application's alert operations, oldest first. *)
Definition runAlertsActions
    (calculateDistance : number -> number -> number -> number -> number)
    (actions : list AlertsAction) (initial : list AlertNotification)
  : list AlertNotification :=
  fold_left (fun alerts action =>
               applyAlertsAction calculateDistance action alerts)
    actions initial.

(** A string without the character ['-']. *)
Fixpoint dashFree (s : string) : bool :=
  match s with
  | EmptyString => true
  | String c s' => negb (Ascii.eqb c "-"%char) && dashFree s'
  end.

(** What the map and the zone list show: [isVisible !== false]. *)
Definition shownOnMap (z : AlertZone) : bool :=
  match Zone.isVisible z with
  | Some false => false
  | _ => true
  end.

(** The four tests of [checkZoneAlerts] on one (event, zone) pair. *)
Definition raisesAlert
    (calculateDistance : number -> number -> number -> number -> number)
    (now minAlertMag : number) (activeAlerts : list AlertNotification)
    (pair : EarthquakeFeature * AlertZone) : bool :=
  negb (belowThreshold minAlertMag (fst pair))
  && negb (tooOld now (fst pair))
  && insideZone calculateDistance (fst pair) (snd pair)
  && negb (alreadyAlerted activeAlerts (alertId (fst pair) (snd pair))).

(** The effects on the speech synthesis interface. *)
Definition onSpeech (e : Effect) : bool :=
  match e with
  | SpeechCancel | SpeechSpeak _ => true
  | _ => false
  end.

(** [getRegionName] of [services/earthquakeService.ts].  Strings are
    held in UTF-8; the comma is one byte there and [trim] removes the
    encodings of the WhiteSpace and LineTerminator code points. *)
Module RegionName.

(** [s.split(',')]: never empty. *)
Fixpoint split (s : string) : list string :=
  match s with
  | EmptyString => [EmptyString]
  | String c s' =>
      if Ascii.eqb c ","%char then EmptyString :: split s'
      else match split s' with
           | part :: parts => String c part :: parts
           | [] => [String c EmptyString]
           end
  end.

Definition byte (n : nat) : ascii := ascii_of_nat n.

(** Tab, line feed, vertical tab, form feed, carriage return, space. *)
Definition space1 (a : ascii) : bool :=
  existsb (Ascii.eqb a) [byte 9; byte 10; byte 11; byte 12; byte 13; byte 32].

(** U+00A0. *)
Definition space2 (a b : ascii) : bool :=
  Ascii.eqb a (byte 194) && Ascii.eqb b (byte 160).

(** U+1680, U+2000 to U+200A, U+2028, U+2029, U+202F, U+205F, U+3000 and
    U+FEFF. *)
Definition space3 (a b c : ascii) : bool :=
  existsb (fun w => match w with
                    | (x, y, z) =>
                        Ascii.eqb a (byte x) && Ascii.eqb b (byte y)
                        && Ascii.eqb c (byte z)
                    end)
    [ (225, 154, 128);
      (226, 128, 128); (226, 128, 129); (226, 128, 130); (226, 128, 131);
      (226, 128, 132); (226, 128, 133); (226, 128, 134); (226, 128, 135);
      (226, 128, 136); (226, 128, 137); (226, 128, 138);
      (226, 128, 168); (226, 128, 169); (226, 128, 175);
      (226, 129, 159); (227, 128, 128); (239, 187, 191) ].

Fixpoint trimStart (s : string) : string :=
  match s with
  | EmptyString => EmptyString
  | String a s1 =>
      if space1 a then trimStart s1
      else match s1 with
           | String b s2 =>
               if space2 a b then trimStart s2
               else match s2 with
                    | String c s3 =>
                        if space3 a b c then trimStart s3 else s
                    | EmptyString => s
                    end
           | EmptyString => s
           end
  end.

Fixpoint reverse (s acc : string) : string :=
  match s with
  | EmptyString => acc
  | String c s' => reverse s' (String c acc)
  end.

(** [trimStart] on the reversed string: the bytes of a code point come
    last byte first. *)
Fixpoint trimStartReversed (s : string) : string :=
  match s with
  | EmptyString => EmptyString
  | String c s1 =>
      if space1 c then trimStartReversed s1
      else match s1 with
           | String b s2 =>
               if space2 b c then trimStartReversed s2
               else match s2 with
                    | String a s3 =>
                        if space3 a b c then trimStartReversed s3 else s
                    | EmptyString => s
                    end
           | EmptyString => s
           end
  end.

(** [s.trim()] *)
Definition trim (s : string) : string :=
  reverse (trimStartReversed (reverse (trimStart s) EmptyString)) EmptyString.

Definition getRegionName (place : string) : string :=
  if negb (truthyString place) then EmptyString
  else
    let parts := split place in
    if 2 <=? List.length parts then trim (last parts EmptyString)
    else place.

(** A string without the character [',']. *)
Fixpoint commaFree (s : string) : bool :=
  match s with
  | EmptyString => true
  | String c s' => negb (Ascii.eqb c ","%char) && commaFree s'
  end.

End RegionName.

(** The comparison behind the five relational operators; [None] when an
    operand is NaN. *)
Definition compareNumbers (x y : number) : option comparison :=
  SFcompare (Prim2SF x) (Prim2SF y).

(** [localStorage] as the list of its writes, latest first; the sound
    settings of [App.tsx] as they are written to it and read back when the
    component starts. *)
Module LocalStorage.

Definition Storage : Set := list (string * string).

Definition setItem (key value : string) (storage : Storage) : Storage :=
  (key, value) :: storage.

Fixpoint getItem (key : string) (storage : Storage) : option string :=
  match storage with
  | [] => None
  | (k, v) :: rest => if String.eqb k key then Some v else getItem key rest
  end.

(** [b.toString()] *)
Definition boolToString (b : bool) : string :=
  if b then "true" else "false".

(** [localStorage.getItem(key) !== 'false'] *)
Definition notFalse (key : string) (storage : Storage) : bool :=
  match getItem key storage with
  | Some v => negb (String.eqb v "false")
  | None => true
  end.

(** [localStorage.getItem(key) === 'true'] *)
Definition isTrue (key : string) (storage : Storage) : bool :=
  match getItem key storage with
  | Some v => String.eqb v "true"
  | None => false
  end.

End LocalStorage.

Section Persistence.

Variable numberToString : number -> string.

(** The effect that persists the sound settings (five [setItem] calls). *)
Definition persistSoundSettings (settings : Settings)
    (storage : LocalStorage.Storage) : LocalStorage.Storage :=
  LocalStorage.setItem "voiceAlertEnabled"
    (LocalStorage.boolToString (voiceAlertEnabled settings))
    (LocalStorage.setItem "quakeSoundEnabled"
       (LocalStorage.boolToString (quakeSoundEnabled settings))
       (LocalStorage.setItem "sirenEnabled"
          (LocalStorage.boolToString (sirenEnabled settings))
          (LocalStorage.setItem "appVolume" (numberToString (volume settings))
             (LocalStorage.setItem "soundEnabled"
                (LocalStorage.boolToString (isSoundEnabled settings))
                storage)))).

(** The effect that persists [reduceAnimation]. *)
Definition persistReduceAnimation (reduceAnimation : bool)
    (storage : LocalStorage.Storage) : LocalStorage.Storage :=
  LocalStorage.setItem "reduceAnimation"
    (LocalStorage.boolToString reduceAnimation) storage.

End Persistence.

(** The initial values of the four sound switches and of
    [reduceAnimation], as the [useState] initialisers read them. *)
Definition initialSwitches (storage : LocalStorage.Storage)
  : bool * bool * bool * bool * bool :=
  ( LocalStorage.notFalse "soundEnabled" storage,
    LocalStorage.notFalse "sirenEnabled" storage,
    LocalStorage.notFalse "quakeSoundEnabled" storage,
    LocalStorage.notFalse "voiceAlertEnabled" storage,
    LocalStorage.isTrue "reduceAnimation" storage ).

(** What a render of [App] hands to the functions it creates: the state
    values [checkZoneAlerts] reads through its closure. *)
Record Render : Set :=
  { renderAlerts : list AlertNotification;
    renderZones : list AlertZone;
    renderMinAlertMag : number }.

(** The alert part of [loadData] as created by [render]:
    [checkZoneAlerts(sorted, zones)], where [sorted] is the fetched list
    in descending time order.  It reads the zones, the threshold and the
    active alerts of [render]; the merge applies to the collection [prev]
    that is current when the update runs. *)
Definition loadDataCheck
    (calculateDistance : number -> number -> number -> number -> number)
    (render : Render) (now : number) (sorted : list EarthquakeFeature)
    (prev : list AlertNotification) : list AlertNotification :=
  checkZoneAlerts calculateDistance now (renderMinAlertMag render)
    (renderAlerts render) sorted (renderZones render) prev.

(** The first render: no alert yet ([useState([])]), the zones and the
    threshold as read from [localStorage].  The effect with the
    dependency [[period]] runs in this render (and again only when the
    period changes): both the load at mount and every tick of the interval
    it installs, [setInterval(() => loadData('day'), 300000)], call the
    [loadData] of this render. *)
Definition mountRender (zones : list AlertZone) (minAlertMag : number)
  : Render :=
  {| renderAlerts := []; renderZones := zones;
     renderMinAlertMag := minAlertMag |}.

(* ------------------------------------------------------------------ *)
(** * Facts about JavaScript comparisons *)

Module JSNumberFacts.

Ltac by_comparison x y :=
  destruct (SFcompare (Prim2SF x) (Prim2SF y)) as [[ | | ]|]; congruence.

Lemma strictEq_le (x y : number) :
  JSNumber.strictEq x y = true -> JSNumber.le x y = true.
Proof.
  unfold JSNumber.strictEq, JSNumber.le. rewrite eqb_spec, leb_spec.
  unfold SFeqb, SFleb. by_comparison x y.
Qed.

Lemma strictEq_not_lt (x y : number) :
  JSNumber.strictEq x y = true -> JSNumber.lt x y = false.
Proof.
  unfold JSNumber.strictEq, JSNumber.lt. rewrite eqb_spec, ltb_spec.
  unfold SFeqb, SFltb. by_comparison x y.
Qed.

End JSNumberFacts.

(* ------------------------------------------------------------------ *)
(** * Lists: loops that push, lookups by id *)

Section Loops.

Variables (A B : Type) (step : list B -> A -> list B).

(** A loop body that only ever pushes onto its accumulator. *)
Hypothesis step_pushes : forall acc x, step acc x = acc ++ step [] x.

Lemma fold_left_pushes (l : list A) (acc : list B) :
  fold_left step l acc = acc ++ flat_map (step []) l.
Proof.
  revert acc. induction l as [|x l IH]; intros acc; simpl.
  - now rewrite app_nil_r.
  - rewrite IH, (step_pushes acc x). now rewrite <- app_assoc.
Qed.

End Loops.

Lemma find_id_none (id : string) (l : list AlertNotification) :
  find (fun a => String.eqb (Alert.id a) id) l = None <->
  ~ In id (map Alert.id l).
Proof.
  induction l as [|a l IH]; simpl.
  - tauto.
  - destruct (String.eqb_spec (Alert.id a) id) as [E|E].
    + split; [discriminate | intros H; exfalso; apply H; now left].
    + rewrite IH. tauto.
Qed.

Lemma flat_map_nil_fun (A B : Type) (f : A -> list B) (l : list A) :
  (forall x, In x l -> f x = []) -> flat_map f l = [].
Proof.
  induction l as [|x l IH]; simpl; intros H; [reflexivity|].
  rewrite (H x) by now left. apply IH. intros y Hy. apply H. now right.
Qed.

Lemma dismissAlert_In (id : string) (prev : list AlertNotification)
    (a : AlertNotification) :
  In a (dismissAlert id prev) <-> In a prev /\ Alert.id a <> id.
Proof.
  unfold dismissAlert. rewrite filter_In.
  destruct (String.eqb_spec (Alert.id a) id); simpl; intuition congruence.
Qed.


(* ------------------------------------------------------------------ *)
(** * The evaluation as a comprehension *)

Section EvaluationFacts.

Variable calculateDistance : number -> number -> number -> number -> number.
Variables now minAlertMag : number.


Section Closure.

Variable activeAlerts : list AlertNotification.

(** What one (event, zone) pair contributes to [newAlerts]. *)
Lemma zoneStep_nil (quake : EarthquakeFeature) (zone : AlertZone) :
  zoneStep calculateDistance activeAlerts quake [] zone =
  if insideZone calculateDistance quake zone && negb (alreadyAlerted activeAlerts (alertId quake zone))
  then [mkAlert quake zone] else [].
Proof.
  unfold zoneStep, insideZone, distanceTo, alreadyAlerted.
  destruct (JSNumber.le _ _); simpl; [|reflexivity].
  now destruct (find _ activeAlerts).
Qed.

Lemma zoneStep_pushes (quake : EarthquakeFeature) acc (zone : AlertZone) :
  zoneStep calculateDistance activeAlerts quake acc zone =
  acc ++ zoneStep calculateDistance activeAlerts quake [] zone.
Proof.
  unfold zoneStep.
  destruct (JSNumber.le _ _); simpl; [|now rewrite app_nil_r].
  destruct (find _ activeAlerts); simpl; [now rewrite app_nil_r|reflexivity].
Qed.

Lemma quakeStep_pushes zones acc (quake : EarthquakeFeature) :
  quakeStep calculateDistance now minAlertMag activeAlerts zones acc quake =
  acc ++ quakeStep calculateDistance now minAlertMag activeAlerts zones [] quake.
Proof.
  unfold quakeStep.
  destruct (JSNumber.lt _ minAlertMag); [now rewrite app_nil_r|].
  destruct (JSNumber.lt _ _); [now rewrite app_nil_r|].
  rewrite !(fold_left_pushes _ (zoneStep_pushes quake)). reflexivity.
Qed.

Lemma quakeStep_nil zones (quake : EarthquakeFeature) :
  quakeStep calculateDistance now minAlertMag activeAlerts zones [] quake =
  if belowThreshold minAlertMag quake || tooOld now quake then []
  else flat_map (zoneStep calculateDistance activeAlerts quake []) zones.
Proof.
  unfold quakeStep, belowThreshold, tooOld.
  destruct (JSNumber.lt _ minAlertMag); [reflexivity|].
  destruct (JSNumber.lt _ _); [reflexivity|]. simpl.
  now rewrite (fold_left_pushes _ (zoneStep_pushes quake)).
Qed.

(** The early return changes nothing: with no zone or no event the
    loops push nothing. *)
Lemma newAlertsOf_flat_map quakes zones :
  newAlertsOf calculateDistance now minAlertMag activeAlerts quakes zones =
  flat_map (quakeStep calculateDistance now minAlertMag activeAlerts zones []) quakes.
Proof.
  unfold newAlertsOf.
  destruct zones as [|z zones]; simpl.
  - symmetry. apply flat_map_nil_fun. intros q _.
    rewrite quakeStep_nil. now destruct (_ || _).
  - destruct quakes as [|q quakes]; [reflexivity|].
    cbn [List.length Nat.eqb].
    now rewrite (fold_left_pushes _ (quakeStep_pushes (z :: zones))).
Qed.

Lemma checkZoneAlerts_merges quakes zones prev :
  checkZoneAlerts calculateDistance now minAlertMag activeAlerts quakes zones prev =
  newAlertsOf calculateDistance now minAlertMag activeAlerts quakes zones ++ prev.
Proof.
  unfold checkZoneAlerts, newAlertsOf.
  destruct (_ || _); [reflexivity|]. cbv zeta.
  destruct (fold_left _ quakes []); reflexivity.
Qed.

(** Membership in [newAlerts]: exactly the pairs that pass the four
    tests. *)
Lemma In_newAlertsOf quakes zones (a : AlertNotification) :
  In a (newAlertsOf calculateDistance now minAlertMag activeAlerts quakes zones) <->
  exists quake zone,
    In quake quakes /\ In zone zones /\
    belowThreshold minAlertMag quake = false /\ tooOld now quake = false /\
    insideZone calculateDistance quake zone = true /\
    alreadyAlerted activeAlerts (alertId quake zone) = false /\
    a = mkAlert quake zone.
Proof.
  rewrite newAlertsOf_flat_map, in_flat_map. split.
  - intros (q & Hq & Ha). rewrite quakeStep_nil in Ha.
    destruct (belowThreshold minAlertMag q) eqn:Em; [contradiction|].
    destruct (tooOld now q) eqn:Eo; [contradiction|]. simpl in Ha.
    apply in_flat_map in Ha. destruct Ha as (z & Hz & Ha).
    rewrite zoneStep_nil in Ha.
    destruct (insideZone calculateDistance q z) eqn:Ei; [|contradiction].
    destruct (alreadyAlerted activeAlerts (alertId q z)) eqn:Ea;
      [contradiction|].
    simpl in Ha. destruct Ha as [<-|[]]. exists q, z. tauto.
  - intros (q & z & Hq & Hz & Em & Eo & Ei & Ea & ->).
    exists q. split; [assumption|]. rewrite quakeStep_nil, Em, Eo. simpl.
    apply in_flat_map. exists z. split; [assumption|].
    rewrite zoneStep_nil, Ei, Ea. now left.
Qed.

End Closure.

End EvaluationFacts.

Lemma sameButVisibility_zoneStep
    (calculateDistance : number -> number -> number -> number -> number)
    (activeAlerts : list AlertNotification) (quake : EarthquakeFeature)
    (acc : list AlertNotification) (z z' : AlertZone) :
  sameButVisibility z z' ->
  zoneStep calculateDistance activeAlerts quake acc z =
  zoneStep calculateDistance activeAlerts quake acc z'.
Proof.
  destruct z, z'. unfold sameButVisibility, withVisibility. simpl.
  intros H. injection H as -> -> -> -> ->. reflexivity.
Qed.

Unset Implicit Arguments.

(* ------------------------------------------------------------------ *)
(** * Deduplication, idempotence and the boundaries of the evaluation *)

(** C1 (dedup).  An id that is already present in the active-alert
    collection the check runs with is never emitted again: no alert of
    [newAlerts] carries it, whatever the magnitudes, ages and distances of
    the events are, and the merged collection holds the very same alerts
    under that id as before. *)
Theorem active_id_not_emitted_again
    (calculateDistance : number -> number -> number -> number -> number)
    (now minAlertMag : number) (activeAlerts : list AlertNotification)
    (quakes : list EarthquakeFeature) (zones : list AlertZone) (id : string) :
  In id (map Alert.id activeAlerts) ->
  ~ In id (map Alert.id
             (newAlertsOf calculateDistance now minAlertMag activeAlerts
                quakes zones)) /\
  filter (fun a => String.eqb (Alert.id a) id)
    (evaluationCycle calculateDistance now minAlertMag quakes zones
       activeAlerts) =
  filter (fun a => String.eqb (Alert.id a) id) activeAlerts.
Proof.
  intros Hid.
  assert (Hnew : ~ In id (map Alert.id
             (newAlertsOf calculateDistance now minAlertMag activeAlerts
                quakes zones))).
  { rewrite in_map_iff. intros (a & <- & Ha).
    apply In_newAlertsOf in Ha.
    destruct Ha as (q & z & _ & _ & _ & _ & _ & Hfresh & ->).
    unfold alreadyAlerted in Hfresh. simpl in Hid.
    destruct (find _ activeAlerts) eqn:E; [discriminate|].
    apply find_id_none in E. contradiction. }
  split; [exact Hnew|].
  unfold evaluationCycle. rewrite checkZoneAlerts_merges, filter_app.
  replace (filter _ (newAlertsOf _ _ _ _ _ _)) with (@nil AlertNotification);
    [reflexivity|].
  symmetry. induction (newAlertsOf _ _ _ _ _ _) as [|a l IH]; [reflexivity|].
  simpl in *. destruct (String.eqb_spec (Alert.id a) id) as [E|E].
  - exfalso. apply Hnew. now left.
  - apply IH. intros H. apply Hnew. now right.
Qed.

Lemma active_id_not_emitted_again_witness :
  let active := [mkAlert Examples.fresh Examples.dhaka] in
  let id := "us7000fresh-1699990000000"%string in
  In id (map Alert.id active) /\
  ~ In id (map Alert.id
             (newAlertsOf Examples.flatDistance Examples.now Examples.threshold active
                [Examples.fresh; Examples.dayOld] [Examples.dhaka])).
Proof.
  cbv zeta. split; [now left|].
  apply (active_id_not_emitted_again Examples.flatDistance Examples.now Examples.threshold
           [mkAlert Examples.fresh Examples.dhaka]
           [Examples.fresh; Examples.dayOld] [Examples.dhaka]).
  now left.
Defined.

(** Idempotence of a run whose closure is current.  With the events,
    zones, threshold and clock fixed, once the alerts emitted by a run are
    merged into the collection, a second run that reads the merged
    collection emits nothing and leaves the collection as it is.  This is
    the case of the re-check effect and of the refresh button, which call
    the function of the current render; the interval does not (see
    [interval_tick_emits_again]). *)
Theorem evaluation_idempotent
    (calculateDistance : number -> number -> number -> number -> number)
    (now minAlertMag : number) (quakes : list EarthquakeFeature)
    (zones : list AlertZone) (activeAlerts : list AlertNotification) :
  let merged :=
    evaluationCycle calculateDistance now minAlertMag quakes zones
      activeAlerts in
  newAlertsOf calculateDistance now minAlertMag merged quakes zones = [] /\
  evaluationCycle calculateDistance now minAlertMag quakes zones merged
  = merged.
Proof.
  cbv zeta.
  assert (H : newAlertsOf calculateDistance now minAlertMag
                (evaluationCycle calculateDistance now minAlertMag quakes
                   zones activeAlerts) quakes zones = []).
  { destruct (newAlertsOf _ _ _ (evaluationCycle _ _ _ _ _ _) _ _)
      as [|a l] eqn:E; [reflexivity|]. exfalso.
    assert (Ha : In a (a :: l)) by now left. rewrite <- E in Ha.
    apply In_newAlertsOf in Ha.
    destruct Ha as (q & z & Hq & Hz & Em & Eo & Ei & Hfresh & _).
    unfold alreadyAlerted in Hfresh.
    destruct (find _ (evaluationCycle _ _ _ _ _ _)) eqn:F; [discriminate|].
    apply find_id_none in F. apply F. clear F Hfresh E.
    unfold evaluationCycle. rewrite checkZoneAlerts_merges, map_app.
    apply in_or_app.
    destruct (alreadyAlerted activeAlerts (alertId q z)) eqn:Ea.
    - right. unfold alreadyAlerted in Ea.
      destruct (find _ activeAlerts) eqn:F; [|discriminate].
      apply find_some in F. destruct F as [Hin Heq].
      apply String.eqb_eq in Heq. rewrite <- Heq. now apply in_map.
    - left. change (alertId q z) with (Alert.id (mkAlert q z)).
      apply in_map. apply In_newAlertsOf. exists q, z. tauto. }
  split; [exact H|].
  unfold evaluationCycle at 1. now rewrite checkZoneAlerts_merges, H.
Qed.

(** The second run of C2 reads the merged collection.  A run whose closure
    still holds the collection from before the merge (here the empty one)
    pushes the same pair again, and the merge then holds its id twice. *)
Example stale_closure_emits_again :
  let first :=
    evaluationCycle Examples.flatDistance Examples.now Examples.threshold
      [Examples.fresh] [Examples.dhaka] [] in
  map Alert.id
    (checkZoneAlerts Examples.flatDistance Examples.now Examples.threshold []
       [Examples.fresh] [Examples.dhaka] first)
  = ["us7000fresh-1699990000000"; "us7000fresh-1699990000000"]%string.
Proof. vm_compute. reflexivity. Qed.

(** C3, as stated, fails: an event whose origin time is exactly
    [now - 86400000] is kept by the recency test and raises an alert.  The
    event lies at the centre of the zone, where the distance is 0. *)
Lemma day_old_event_still_alerts :
  JSNumber.strictEq (Feature.time (Feature.properties Examples.dayOld))
    (Examples.now - dayMs)%float = true /\
  newAlertsOf Examples.flatDistance Examples.now Examples.threshold []
    [Examples.dayOld] [Examples.dhaka]
  = [mkAlert Examples.dayOld Examples.dhaka].
Proof. split; vm_compute; reflexivity. Qed.

(** C3 (recency boundary, amended).  The recency test is strict on the
    other side: an event is skipped only when its time is below
    [now - 86400000].  An event whose time equals [now - 86400000] is
    therefore kept: it raises an alert for every zone it lies in when it
    meets the threshold and the pair is not active yet; and no emitted
    alert ever carries a timestamp below [now - 86400000]. *)
Theorem recency_boundary_is_kept
    (calculateDistance : number -> number -> number -> number -> number)
    (now minAlertMag : number) (activeAlerts : list AlertNotification)
    (quakes : list EarthquakeFeature) (zones : list AlertZone)
    (quake : EarthquakeFeature) (zone : AlertZone) :
  In quake quakes -> In zone zones ->
  JSNumber.strictEq (Feature.time (Feature.properties quake))
    (now - dayMs)%float = true ->
  belowThreshold minAlertMag quake = false ->
  insideZone calculateDistance quake zone = true ->
  alreadyAlerted activeAlerts (alertId quake zone) = false ->
  In (mkAlert quake zone)
    (newAlertsOf calculateDistance now minAlertMag activeAlerts quakes zones)
  /\
  (forall a,
     In a (newAlertsOf calculateDistance now minAlertMag activeAlerts
             quakes zones) ->
     JSNumber.lt (Alert.timestamp a) (now - dayMs)%float = false).
Proof.
  intros Hq Hz Hage Hmag Hin Hfresh. split.
  - apply In_newAlertsOf. exists quake, zone.
    repeat split; try assumption.
    unfold tooOld, oneDayAgo. now apply JSNumberFacts.strictEq_not_lt.
  - intros a Ha. apply In_newAlertsOf in Ha.
    destruct Ha as (q & z & _ & _ & _ & Hold & _ & _ & ->). exact Hold.
Qed.

Lemma recency_boundary_is_kept_witness :
  In (mkAlert Examples.dayOld Examples.dhaka)
    (newAlertsOf Examples.flatDistance Examples.now Examples.threshold []
       [Examples.fresh; Examples.dayOld] [Examples.dhaka]).
Proof.
  apply (recency_boundary_is_kept Examples.flatDistance Examples.now Examples.threshold []
           [Examples.fresh; Examples.dayOld] [Examples.dhaka]
           Examples.dayOld Examples.dhaka).
  - right. now left.
  - now left.
  - vm_compute. reflexivity.
  - vm_compute. reflexivity.
  - vm_compute. reflexivity.
  - vm_compute. reflexivity.
Defined.

(** C9 (distance boundary).  For an event that passes the magnitude and
    recency tests, a distance equal to the zone's [radiusKm] is inside the
    zone: the comparison is [<=].  The pair raises an alert unless its id
    is active already, so after the cycle its id is in the collection. *)
Theorem distance_boundary_qualifies
    (calculateDistance : number -> number -> number -> number -> number)
    (now minAlertMag : number) (activeAlerts : list AlertNotification)
    (quakes : list EarthquakeFeature) (zones : list AlertZone)
    (quake : EarthquakeFeature) (zone : AlertZone) :
  In quake quakes -> In zone zones ->
  belowThreshold minAlertMag quake = false ->
  tooOld now quake = false ->
  JSNumber.strictEq (distanceTo calculateDistance zone quake)
    (Zone.radiusKm zone) = true ->
  insideZone calculateDistance quake zone = true /\
  (alreadyAlerted activeAlerts (alertId quake zone) = false ->
   In (mkAlert quake zone)
     (newAlertsOf calculateDistance now minAlertMag activeAlerts
        quakes zones)) /\
  In (alertId quake zone)
    (map Alert.id
       (evaluationCycle calculateDistance now minAlertMag quakes zones
          activeAlerts)).
Proof.
  intros Hq Hz Hmag Hold Hdist.
  assert (Hin : insideZone calculateDistance quake zone = true)
    by (unfold insideZone; now apply JSNumberFacts.strictEq_le).
  assert (Hemit : alreadyAlerted activeAlerts (alertId quake zone) = false ->
            In (mkAlert quake zone)
              (newAlertsOf calculateDistance now minAlertMag activeAlerts
                 quakes zones)).
  { intros Hfresh. apply In_newAlertsOf. exists quake, zone. tauto. }
  repeat split; [exact Hin | exact Hemit |].
  unfold evaluationCycle. rewrite checkZoneAlerts_merges, map_app.
  apply in_or_app.
  destruct (alreadyAlerted activeAlerts (alertId quake zone)) eqn:Ea.
  - right. unfold alreadyAlerted in Ea.
    destruct (find _ activeAlerts) eqn:F; [|discriminate].
    apply find_some in F. destruct F as [Ha Heq].
    apply String.eqb_eq in Heq. rewrite <- Heq. now apply in_map.
  - left. change (alertId quake zone) with (Alert.id (mkAlert quake zone)).
    apply in_map. now apply Hemit.
Qed.

Lemma distance_boundary_qualifies_witness :
  JSNumber.strictEq
    (distanceTo Examples.flatDistance Examples.equator Examples.onTheRim)
    (Zone.radiusKm Examples.equator) = true /\
  insideZone Examples.flatDistance Examples.onTheRim Examples.equator = true.
Proof.
  split; [vm_compute; reflexivity|].
  apply (distance_boundary_qualifies Examples.flatDistance Examples.now Examples.threshold
           [] [Examples.onTheRim] [Examples.equator]
           Examples.onTheRim Examples.equator).
  - now left.
  - now left.
  - vm_compute. reflexivity.
  - vm_compute. reflexivity.
  - vm_compute. reflexivity.
Defined.



(** C6 (visibility independence).  Zone lists that differ at most in the
    [isVisible] flags of their zones produce the same alerts, field by
    field, and the same merged collection: the evaluation never reads the
    flag. *)
Theorem visibility_independence
    (calculateDistance : number -> number -> number -> number -> number)
    (now minAlertMag : number) (activeAlerts : list AlertNotification)
    (quakes : list EarthquakeFeature) (zones zones' : list AlertZone)
    (prev : list AlertNotification) :
  Forall2 sameButVisibility zones zones' ->
  newAlertsOf calculateDistance now minAlertMag activeAlerts quakes zones =
  newAlertsOf calculateDistance now minAlertMag activeAlerts quakes zones' /\
  checkZoneAlerts calculateDistance now minAlertMag activeAlerts
    quakes zones prev =
  checkZoneAlerts calculateDistance now minAlertMag activeAlerts
    quakes zones' prev.
Proof.
  intros Hzones.
  assert (H : newAlertsOf calculateDistance now minAlertMag activeAlerts
                quakes zones =
              newAlertsOf calculateDistance now minAlertMag activeAlerts
                quakes zones').
  { rewrite !newAlertsOf_flat_map. apply flat_map_ext. intros q.
    rewrite !quakeStep_nil. destruct (_ || _); [reflexivity|].
    induction Hzones as [|z z' l l' Hz _ IH]; simpl; [reflexivity|].
    now rewrite IH, (sameButVisibility_zoneStep _ _ _ _ Hz). }
  split; [exact H|]. now rewrite !checkZoneAlerts_merges, H.
Qed.

Lemma visibility_independence_witness :
  newAlertsOf Examples.flatDistance Examples.now Examples.threshold []
    [Examples.fresh] [Examples.hiddenDhaka] =
  newAlertsOf Examples.flatDistance Examples.now Examples.threshold []
    [Examples.fresh] [Examples.dhaka].
Proof.
  apply (visibility_independence Examples.flatDistance Examples.now
           Examples.threshold [] [Examples.fresh]
           [Examples.hiddenDhaka] [Examples.dhaka] []).
  constructor; [|constructor]. vm_compute. reflexivity.
Defined.

(** C8 (additive evaluation, removal by dismissal only).  The collection
    changes through two operations.  The merge of [checkZoneAlerts] puts
    the new alerts in front of the previous collection, which it keeps
    whole (and unchanged when nothing is new).  [dismissAlert] keeps, in
    order, exactly the alerts whose id differs from the dismissed one.
    Hence an alert that is in the collection before an operation and not
    after it was dismissed by its id. *)
Theorem alerts_leave_only_by_dismissal
    (calculateDistance : number -> number -> number -> number -> number)
    (prev : list AlertNotification) :
  (forall now minAlertMag captured quakes zones,
     let newAlerts :=
       newAlertsOf calculateDistance now minAlertMag captured quakes zones in
     applyAlertsAction calculateDistance
       (CheckZoneAlerts now minAlertMag captured quakes zones) prev
     = newAlerts ++ prev /\
     (newAlerts = [] ->
      applyAlertsAction calculateDistance
        (CheckZoneAlerts now minAlertMag captured quakes zones) prev = prev))
  /\
  (forall id a,
     In a (applyAlertsAction calculateDistance (DismissAlert id) prev) <->
     In a prev /\ Alert.id a <> id)
  /\
  (forall action a,
     In a prev ->
     ~ In a (applyAlertsAction calculateDistance action prev) ->
     action = DismissAlert (Alert.id a)).
Proof.
  split; [|split].
  - intros now minAlertMag captured quakes zones newAlerts. simpl.
    rewrite checkZoneAlerts_merges. fold newAlerts.
    split; [reflexivity|]. now intros ->.
  - intros id a. simpl. apply dismissAlert_In.
  - intros [now minAlertMag captured quakes zones | id] a Ha Hgone;
      simpl in Hgone.
    + exfalso. apply Hgone. rewrite checkZoneAlerts_merges.
      apply in_or_app. now right.
    + f_equal. destruct (String.eqb_spec (Alert.id a) id) as [E|E];
        [now symmetry|].
      exfalso. apply Hgone. apply dismissAlert_In. now split.
Qed.

(* ------------------------------------------------------------------ *)
(** * The monitors *)

Lemma playAlertSiren_silent (window : Window) (settings : Settings) :
  filter isSpeak (playAlertSiren window settings) = [].
Proof.
  unfold playAlertSiren.
  destruct (_ || _); [reflexivity|]. now destruct (audioContext window).
Qed.

(** C4 (trigger B).  One run of the significant-quake monitor plays
    nothing when no latest id has been recorded yet (first load), plays
    nothing when the head of the list carries the recorded id, and plays
    the quake sound only when an id was recorded, the head's id differs
    from it and the head's magnitude is at least 5.5. *)
Theorem significant_quake_trigger (window : Window) (settings : Settings)
    (earthquakes : list EarthquakeFeature) (prevLatestQuakeId : option string) :
  let effects :=
    fst (significantQuakeMonitor window settings earthquakes
           prevLatestQuakeId) in
  (prevLatestQuakeId = None -> effects = []) /\
  (forall latest rest,
     earthquakes = latest :: rest ->
     prevLatestQuakeId = Some (Feature.id latest) -> effects = []) /\
  (forall e,
     In e effects -> isQuakeSound e = true ->
     exists latest rest previous,
       earthquakes = latest :: rest /\
       prevLatestQuakeId = Some previous /\
       previous <> Feature.id latest /\
       JSNumber.ge (Feature.mag (Feature.properties latest)) 5.5 = true).
Proof.
  cbv zeta. unfold significantQuakeMonitor.
  destruct earthquakes as [|latest rest]; simpl.
  - repeat split; try reflexivity. intros e [].
  - split; [|split].
    + intros ->. reflexivity.
    + intros latest' rest' E ->. injection E as <- <-.
      rewrite String.eqb_refl. simpl. now rewrite andb_false_r.
    + intros e He Hsound.
      destruct prevLatestQuakeId as [previous|]; [|contradiction].
      exists latest, rest, previous.
      destruct (String.eqb_spec (Feature.id latest) previous) as [E|E].
      * simpl in He. rewrite andb_false_r in He. contradiction.
      * destruct (truthyRef (Some previous)); simpl in He; [|contradiction].
        destruct (JSNumber.ge _ _); [|contradiction].
        repeat split; congruence.
Qed.

(** The trigger does fire: a new head of magnitude 6.1 after a recorded,
    different id plays the quake sound, and records the new id. *)
Example significant_quake_fires :
  significantQuakeMonitor Examples.browser Examples.settings
    [Examples.strong; Examples.fresh] (Some "us7000fresh"%string)
  = ([SignificantQuakeSound (0.3 * 1.0)%float], Some "us7000strong"%string).
Proof. vm_compute. reflexivity. Qed.

(** C5, as stated, fails: where the browser has no speech synthesis the
    alert count rises from 0 to 1 with the voice channel enabled and no
    utterance is produced (the siren alone plays). *)
Lemma no_utterance_without_speech_synthesis :
  let activeAlerts := [mkAlert Examples.fresh Examples.dhaka] in
  voiceAlertEnabled Examples.settings = true /\
  (0 <? List.length activeAlerts) = true /\
  fst (alertMonitor Examples.showNumber Examples.muteBrowser
         Examples.settings activeAlerts 0)
  = [AlertSiren (0.3 * 1.0)%float].
Proof. cbv zeta. repeat split; vm_compute; reflexivity. Qed.

(** C5 (one utterance per increase, amended).  When the alert count has
    risen since the last run, the voice channel is enabled and the browser
    offers speech synthesis, the monitor speaks exactly once, for the head
    of the collection, with the text naming its zone and magnitude,
    however many alerts were added; the speech is cancelled immediately
    before the utterance is spoken; and the run records the count, so a
    re-run on the same collection does nothing.  Without speech synthesis
    in the browser nothing is spoken. *)
Theorem one_utterance_per_increase (numberToString : number -> string)
    (window : Window) (settings : Settings)
    (activeAlerts : list AlertNotification) (prevAlertCount : nat) :
  prevAlertCount < List.length activeAlerts ->
  voiceAlertEnabled settings = true ->
  let run :=
    alertMonitor numberToString window settings activeAlerts prevAlertCount in
  (forall voices, speechSynthesis window = Some voices ->
     exists latest rest utterance,
       activeAlerts = latest :: rest /\
       text utterance = alertText numberToString latest /\
       fst run = playAlertSiren window settings
                 ++ [SpeechCancel; SpeechSpeak utterance] /\
       filter isSpeak (fst run) = [SpeechSpeak utterance]) /\
  (speechSynthesis window = None -> filter isSpeak (fst run) = []) /\
  fst (alertMonitor numberToString window settings activeAlerts (snd run))
  = [].
Proof.
  intros Hmore Hvoice. cbv zeta. unfold alertMonitor. simpl fst. simpl snd.
  rewrite Nat.ltb_irrefl.
  destruct activeAlerts as [|latest rest]; [simpl in Hmore; lia|].
  apply Nat.ltb_lt in Hmore. rewrite Hmore, Hvoice. simpl.
  unfold speakAlert. split; [|split; [|reflexivity]].
  - intros voices ->. eexists latest, rest, _. split; [reflexivity|].
    split; [|split; [reflexivity|]]; [reflexivity|].
    now rewrite filter_app, playAlertSiren_silent.
  - intros ->. now rewrite app_nil_r, playAlertSiren_silent.
Qed.

Lemma one_utterance_per_increase_witness :
  let activeAlerts :=
    [mkAlert Examples.strong Examples.dhaka;
     mkAlert Examples.fresh Examples.dhaka] in
  let run :=
    alertMonitor Examples.showNumber Examples.browser Examples.settings
      activeAlerts 0 in
  0 < List.length activeAlerts /\
  voiceAlertEnabled Examples.settings = true /\
  exists utterance,
    filter isSpeak (fst run) = [SpeechSpeak utterance] /\
    text utterance
    = alertText Examples.showNumber (mkAlert Examples.strong Examples.dhaka).
Proof.
  cbv zeta.
  assert (Hmore : 0 < List.length [mkAlert Examples.strong Examples.dhaka;
                                   mkAlert Examples.fresh Examples.dhaka])
    by (simpl; lia).
  split; [exact Hmore|]. split; [reflexivity|].
  destruct (one_utterance_per_increase Examples.showNumber Examples.browser
              Examples.settings _ 0 Hmore eq_refl) as (Hspeech & _ & _).
  destruct (Hspeech _ eq_refl) as (latest & rest & utterance & E & Ht & _ & Hf).
  injection E as <- <-. exists utterance. split; assumption.
Defined.

(** Two alerts added in one cycle: one utterance, for the head. *)
Example two_alerts_one_utterance :
  filter isSpeak
    (fst (alertMonitor Examples.showNumber Examples.browser Examples.settings
            [mkAlert Examples.strong Examples.dhaka;
             mkAlert Examples.fresh Examples.dhaka] 0))
  = [SpeechSpeak
       {| text := alertText Examples.showNumber
                    (mkAlert Examples.strong Examples.dhaka);
          utteranceVolume := 1.0; rate := 1.0; pitch := 1.0;
          voice := Some {| lang := "bn-BD" |} |}].
Proof. vm_compute. reflexivity. Qed.

(* ------------------------------------------------------------------ *)
(** * The zone store *)

Lemma unique_zone_id (zones : list AlertZone) (z z' : AlertZone) :
  NoDup (map Zone.id zones) ->
  In z zones -> In z' zones -> Zone.id z = Zone.id z' -> z = z'.
Proof.
  induction zones as [|x zones IH]; simpl; [contradiction|].
  intros Hnd [->|Hz] [->|Hz'] E; inversion_clear Hnd as [|? ? Hx Hrest].
  - reflexivity.
  - exfalso. apply Hx. rewrite E. now apply in_map.
  - exfalso. apply Hx. rewrite <- E. now apply in_map.
  - now apply IH.
Qed.

Lemma updateZone_nth (updatedZone : AlertZone) (zones : list AlertZone)
    (i : nat) (z : AlertZone) :
  nth_error zones i = Some z ->
  nth_error (updateZone updatedZone zones) i =
  Some (if String.eqb (Zone.id z) (Zone.id updatedZone)
        then updatedZone else z).
Proof.
  intros H. unfold updateZone. rewrite nth_error_map, H. reflexivity.
Qed.

(** C7, as stated, fails on the store: [updateZone] with a record that
    carries no [isVisible] replaces a hidden zone by that record, and the
    stored zone has no [isVisible] any more. *)
Lemma updateZone_drops_visibility :
  let update :=
    {| Zone.id := Zone.id Examples.hiddenDhaka; Zone.name := "Dhaka city";
       Zone.lat := 23.81; Zone.lng := 90.41; Zone.radiusKm := 80;
       Zone.isVisible := None |} in
  map Zone.isVisible [Examples.hiddenDhaka] = [Some false] /\
  map Zone.isVisible (updateZone update [Examples.hiddenDhaka]) = [None].
Proof. cbv zeta. split; vm_compute; reflexivity. Qed.

(** C7 (update and visibility, amended).  [updateZone] replaces a zone
    matched by id with the given record as a whole, [isVisible] included.
    The visibility survives an edit because the form's [saveZone] builds
    that record from the name, location and radius of the form and from
    the [isVisible] of the stored zone with the edited id: with unique ids
    in the store, the zone edited through the form keeps its place and its
    previous [isVisible], whatever it was. *)
Theorem edit_preserves_visibility (numberToString : number -> string)
    (now : number) (zones : list AlertZone) (form : ZoneForm)
    (updatedZone : AlertZone) (i : nat) (z : AlertZone) :
  NoDup (map Zone.id zones) ->
  saveZone numberToString now zones form = Some (OnUpdateZone updatedZone) ->
  nth_error zones i = Some z ->
  Zone.id z = Zone.id updatedZone ->
  nth_error (updateZone updatedZone zones) i = Some updatedZone /\
  nth_error
    (applyZoneCallback (saveZone numberToString now zones form) zones) i
  = Some updatedZone /\
  Zone.isVisible updatedZone = Zone.isVisible z /\
  Zone.name updatedZone = newZoneName form /\
  Zone.radiusKm updatedZone = newZoneRadius form /\
  tempZoneLoc form = Some (Zone.lat updatedZone, Zone.lng updatedZone).
Proof.
  intros Hnd Hsave Hz Hid.
  assert (Hnth : nth_error (updateZone updatedZone zones) i
                 = Some updatedZone).
  { rewrite (updateZone_nth updatedZone zones i z Hz), Hid. now rewrite String.eqb_refl. }
  split; [exact Hnth|]. rewrite Hsave. simpl. split; [exact Hnth|].
  unfold saveZone in Hsave.
  destruct (tempZoneLoc form) as [[lat lng]|]; [|discriminate].
  destruct (truthyString (newZoneName form)); [|discriminate].
  destruct (editingZoneId form) as [editing|]; [|discriminate].
  destruct (truthyString editing); [|discriminate].
  injection Hsave as <-. simpl in *. repeat split.
  destruct (find _ zones) as [z0|] eqn:F.
  - apply find_some in F. destruct F as [Hz0 E0].
    apply String.eqb_eq in E0. f_equal.
    apply (unique_zone_id zones); try assumption.
    + eapply nth_error_In. exact Hz.
    + congruence.
  - exfalso. apply nth_error_In in Hz.
    apply (find_none _ _ F) in Hz. simpl in Hz.
    rewrite Hid, String.eqb_refl in Hz. discriminate.
Qed.

Lemma edit_preserves_visibility_witness :
  let form :=
    {| tempZoneLoc := Some (23.70, 90.40)%float;
       newZoneName := "Dhaka city"; newZoneRadius := 80;
       editingZoneId := Some (Zone.id Examples.hiddenDhaka) |} in
  let updatedZone :=
    {| Zone.id := Zone.id Examples.hiddenDhaka; Zone.name := "Dhaka city";
       Zone.lat := 23.70; Zone.lng := 90.40; Zone.radiusKm := 80;
       Zone.isVisible := Some false |} in
  saveZone Examples.showNumber Examples.now [Examples.hiddenDhaka] form
  = Some (OnUpdateZone updatedZone) /\
  nth_error
    (applyZoneCallback
       (saveZone Examples.showNumber Examples.now [Examples.hiddenDhaka] form)
       [Examples.hiddenDhaka]) 0
  = Some updatedZone /\
  Zone.isVisible updatedZone = Zone.isVisible Examples.hiddenDhaka.
Proof.
  cbv zeta.
  assert (Hsave :
    saveZone Examples.showNumber Examples.now [Examples.hiddenDhaka]
      {| tempZoneLoc := Some (23.70, 90.40)%float;
         newZoneName := "Dhaka city"; newZoneRadius := 80;
         editingZoneId := Some (Zone.id Examples.hiddenDhaka) |}
    = Some (OnUpdateZone
              {| Zone.id := Zone.id Examples.hiddenDhaka;
                 Zone.name := "Dhaka city";
                 Zone.lat := 23.70; Zone.lng := 90.40; Zone.radiusKm := 80;
                 Zone.isVisible := Some false |}))
    by (vm_compute; reflexivity).
  assert (Hids : NoDup (map Zone.id [Examples.hiddenDhaka]))
    by (repeat constructor; simpl; tauto).
  destruct (edit_preserves_visibility Examples.showNumber Examples.now
              [Examples.hiddenDhaka] _ _ 0 Examples.hiddenDhaka
              Hids Hsave eq_refl eq_refl) as (_ & Hnth & Hvis & _).
  repeat split; assumption.
Defined.

(* ------------------------------------------------------------------ *)
(** * The order of JavaScript numbers *)

Module JSNumberOrder.

Ltac sf_cases :=
  repeat match goal with
  | s : bool |- _ => destruct s
  end;
  simpl; try congruence;
  repeat match goal with
  | |- context [Z.compare ?a ?b] =>
      let H := fresh in destruct (Z.compare_spec a b) as [H|H|H]; simpl
  | |- context [Pos.compare_cont Eq ?a ?b] =>
      change (Pos.compare_cont Eq a b) with (Pos.compare a b);
      let H := fresh in destruct (Pos.compare_spec a b) as [H|H|H]; simpl
  end;
  try congruence; try lia.

Ltac sf_three x y z :=
  destruct x as [?|?| |? ? ?], y as [?|?| |? ? ?], z as [?|?| |? ? ?];
  simpl; try congruence; sf_cases.

Lemma SFcompare_lt_trans x y z :
  SFcompare x y = Some Lt -> SFcompare y z = Some Lt ->
  SFcompare x z = Some Lt.
Proof. sf_three x y z. Qed.

Lemma SFcompare_lt_eq_trans x y z :
  SFcompare x y = Some Lt -> SFcompare y z = Some Eq ->
  SFcompare x z = Some Lt.
Proof. sf_three x y z. Qed.

Lemma SFcompare_eq_lt_trans x y z :
  SFcompare x y = Some Eq -> SFcompare y z = Some Lt ->
  SFcompare x z = Some Lt.
Proof. sf_three x y z. Qed.

Lemma SFcompare_eq_trans x y z :
  SFcompare x y = Some Eq -> SFcompare y z = Some Eq ->
  SFcompare x z = Some Eq.
Proof. sf_three x y z. Qed.

Lemma SFcompare_sym x y :
  SFcompare y x = option_map CompOpp (SFcompare x y).
Proof.
  destruct x as [?|?| |? ? ?], y as [?|?| |? ? ?];
    simpl; try congruence; sf_cases.
Qed.

Lemma SFcompare_none x y :
  SFcompare x y = None -> SFcompare x x = None \/ SFcompare y y = None.
Proof.
  destruct x as [?|?| |? ? ?], y as [?|?| |? ? ?]; simpl; try congruence; auto.
Qed.

Lemma SFcompare_refl x : SFcompare x x <> None -> SFcompare x x = Some Eq.
Proof.
  destruct x as [?|?| |? ? ?]; simpl; try congruence; intros _; sf_cases.
Qed.

Lemma lt_cmp x y : JSNumber.lt x y = true <-> compareNumbers x y = Some Lt.
Proof.
  unfold JSNumber.lt, compareNumbers. rewrite ltb_spec. unfold SFltb.
  destruct (SFcompare _ _) as [[ | | ]|]; split; congruence.
Qed.

Lemma le_cmp x y :
  JSNumber.le x y = true <-> compareNumbers x y = Some Lt \/ compareNumbers x y = Some Eq.
Proof.
  unfold JSNumber.le, compareNumbers. rewrite leb_spec. unfold SFleb.
  destruct (SFcompare _ _) as [[ | | ]|]; split;
    try congruence; try tauto; intros [H|H]; congruence.
Qed.

Lemma strictEq_cmp x y : JSNumber.strictEq x y = true <-> compareNumbers x y = Some Eq.
Proof.
  unfold JSNumber.strictEq, compareNumbers. rewrite eqb_spec. unfold SFeqb.
  destruct (SFcompare _ _) as [[ | | ]|]; split; congruence.
Qed.

Lemma isNaN_cmp x : JSMath.isNaN x = false <-> compareNumbers x x = Some Eq.
Proof.
  unfold JSMath.isNaN. rewrite negb_false_iff. apply (strictEq_cmp x x).
Qed.

Lemma cmp_numbers x y :
  compareNumbers x y <> None -> JSMath.isNaN x = false /\ JSMath.isNaN y = false.
Proof.
  intros H. rewrite !isNaN_cmp. unfold compareNumbers in *.
  split; apply SFcompare_refl; intros E.
  - destruct (Prim2SF x), (Prim2SF y); simpl in *; congruence.
  - destruct (Prim2SF x), (Prim2SF y); simpl in *; congruence.
Qed.

Lemma numbers_cmp x y :
  JSMath.isNaN x = false -> JSMath.isNaN y = false -> compareNumbers x y <> None.
Proof.
  rewrite !isNaN_cmp. unfold compareNumbers. intros Hx Hy E.
  apply SFcompare_none in E. destruct E; congruence.
Qed.

Lemma lt_trans x y z :
  JSNumber.lt x y = true -> JSNumber.lt y z = true -> JSNumber.lt x z = true.
Proof. rewrite !lt_cmp. apply SFcompare_lt_trans. Qed.

Lemma lt_le_trans x y z :
  JSNumber.lt x y = true -> JSNumber.le y z = true -> JSNumber.lt x z = true.
Proof.
  rewrite !lt_cmp, le_cmp. intros H [H'|H'].
  - eapply SFcompare_lt_trans; eassumption.
  - eapply SFcompare_lt_eq_trans; eassumption.
Qed.

Lemma le_lt_trans x y z :
  JSNumber.le x y = true -> JSNumber.lt y z = true -> JSNumber.lt x z = true.
Proof.
  rewrite !lt_cmp, le_cmp. intros [H|H] H'.
  - eapply SFcompare_lt_trans; eassumption.
  - eapply SFcompare_eq_lt_trans; eassumption.
Qed.

Lemma le_trans x y z :
  JSNumber.le x y = true -> JSNumber.le y z = true -> JSNumber.le x z = true.
Proof.
  intros H H'. pose proof H as H0. rewrite le_cmp in H0.
  destruct H0 as [H0|H0].
  - apply le_cmp. left. apply lt_cmp. apply (lt_le_trans x y z);
      [now apply lt_cmp | exact H'].
  - rewrite le_cmp in H'. apply le_cmp. destruct H' as [H'|H'].
    + left. eapply SFcompare_eq_lt_trans; eassumption.
    + right. eapply SFcompare_eq_trans; eassumption.
Qed.

Lemma le_not_lt x y : JSNumber.le x y = true -> JSNumber.lt y x = false.
Proof.
  rewrite le_cmp. intros H. apply not_true_is_false. rewrite lt_cmp.
  unfold compareNumbers in *. rewrite SFcompare_sym.
  destruct H as [-> | ->]; simpl; congruence.
Qed.

Lemma not_lt_le x y :
  JSMath.isNaN x = false -> JSMath.isNaN y = false ->
  JSNumber.lt x y = false -> JSNumber.le y x = true.
Proof.
  intros Hx Hy H. apply le_cmp.
  pose proof (numbers_cmp x y Hx Hy) as Hc.
  apply not_true_iff_false in H. rewrite lt_cmp in H.
  unfold compareNumbers in *. rewrite SFcompare_sym.
  destruct (SFcompare (Prim2SF x) (Prim2SF y)) as [[ | | ]|]; simpl;
    try congruence; auto.
Qed.

Lemma le_refl x : JSMath.isNaN x = false -> JSNumber.le x x = true.
Proof. intros H. apply le_cmp. right. now apply isNaN_cmp. Qed.

Lemma lt_numbers x y :
  JSNumber.lt x y = true -> JSMath.isNaN x = false /\ JSMath.isNaN y = false.
Proof. rewrite lt_cmp. intros H. apply cmp_numbers. congruence. Qed.

Lemma le_numbers x y :
  JSNumber.le x y = true -> JSMath.isNaN x = false /\ JSMath.isNaN y = false.
Proof. rewrite le_cmp. intros H. apply cmp_numbers. destruct H; congruence. Qed.

Lemma isNaN_nan : JSMath.isNaN nan = true.
Proof. reflexivity. Qed.

Lemma strictEq_nan x : JSNumber.strictEq x nan = false.
Proof.
  apply not_true_is_false. intros H. apply strictEq_cmp in H.
  assert (Hn : compareNumbers x nan <> None) by congruence.
  apply cmp_numbers in Hn. destruct Hn as [_ Hn]. discriminate.
Qed.

(** [Math.max] and [Math.min] of two numbers: one of the two, above
    (below) both. *)
Lemma max_spec a b :
  JSMath.isNaN a = false -> JSMath.isNaN b = false ->
  (JSMath.max a b = a \/ JSMath.max a b = b) /\
  JSNumber.le a (JSMath.max a b) = true /\
  JSNumber.le b (JSMath.max a b) = true.
Proof.
  intros Ha Hb. unfold JSMath.max. rewrite Ha, Hb. simpl.
  destruct (PrimFloat.ltb a b) eqn:Eab.
  - repeat split; [now right | | now apply le_refl].
    apply le_cmp. left. now apply lt_cmp.
  - destruct (PrimFloat.ltb b a) eqn:Eba.
    + repeat split; [now left | now apply le_refl |].
      apply le_cmp. left. now apply lt_cmp.
    + pose proof (not_lt_le a b Ha Hb Eab) as Hba.
      pose proof (not_lt_le b a Hb Ha Eba) as Hab.
      destruct (get_sign a); repeat split; auto using le_refl.
Qed.

Lemma min_spec a b :
  JSMath.isNaN a = false -> JSMath.isNaN b = false ->
  (JSMath.min a b = a \/ JSMath.min a b = b) /\
  JSNumber.le (JSMath.min a b) a = true /\
  JSNumber.le (JSMath.min a b) b = true.
Proof.
  intros Ha Hb. unfold JSMath.min. rewrite Ha, Hb. simpl.
  destruct (PrimFloat.ltb a b) eqn:Eab.
  - repeat split; [now left | now apply le_refl |].
    apply le_cmp. left. now apply lt_cmp.
  - destruct (PrimFloat.ltb b a) eqn:Eba.
    + repeat split; [now right | | now apply le_refl].
      apply le_cmp. left. now apply lt_cmp.
    + pose proof (not_lt_le a b Ha Hb Eab) as Hba.
      pose proof (not_lt_le b a Hb Ha Eba) as Hab.
      destruct (get_sign a); repeat split; auto using le_refl.
Qed.

Lemma max_nan_l a b : JSMath.isNaN a = true -> JSMath.max a b = nan.
Proof. intros H. unfold JSMath.max. now rewrite H. Qed.

Lemma max_nan_r a b : JSMath.isNaN b = true -> JSMath.max a b = nan.
Proof. intros H. unfold JSMath.max. rewrite H. now rewrite orb_true_r. Qed.

End JSNumberOrder.

(* ------------------------------------------------------------------ *)
(** * More about the evaluation *)

Lemma pairs_of_quake
    (calculateDistance : number -> number -> number -> number -> number)
    (now minAlertMag : number) (activeAlerts : list AlertNotification)
    (quake : EarthquakeFeature) (zones : list AlertZone) :
  quakeStep calculateDistance now minAlertMag activeAlerts zones [] quake =
  map (fun pair => mkAlert (fst pair) (snd pair))
    (filter (raisesAlert calculateDistance now minAlertMag activeAlerts)
       (map (pair quake) zones)).
Proof.
  rewrite quakeStep_nil. unfold raisesAlert.
  induction zones as [|z zones IH]; simpl.
  - now destruct (_ || _).
  - rewrite zoneStep_nil.
    destruct (belowThreshold minAlertMag quake); simpl in *; [exact IH|].
    destruct (tooOld now quake); simpl in *; [exact IH|].
    destruct (insideZone calculateDistance quake z); simpl; [|exact IH].
    destruct (alreadyAlerted activeAlerts (alertId quake z)); simpl;
      [exact IH|]. now rewrite IH.
Qed.

(** X1 (order of the new alerts).  The two nested loops list the pairs
    that pass the four tests in the order of the events and, for one
    event, in the order of the zones; there are at most as many new alerts
    as pairs. *)
Theorem new_alerts_in_event_then_zone_order
    (calculateDistance : number -> number -> number -> number -> number)
    (now minAlertMag : number) (activeAlerts : list AlertNotification)
    (quakes : list EarthquakeFeature) (zones : list AlertZone) :
  newAlertsOf calculateDistance now minAlertMag activeAlerts quakes zones =
  map (fun pair => mkAlert (fst pair) (snd pair))
    (filter (raisesAlert calculateDistance now minAlertMag activeAlerts)
       (list_prod quakes zones)) /\
  List.length
    (newAlertsOf calculateDistance now minAlertMag activeAlerts quakes zones)
  <= List.length quakes * List.length zones.
Proof.
  assert (E : newAlertsOf calculateDistance now minAlertMag activeAlerts
                quakes zones =
              map (fun pair => mkAlert (fst pair) (snd pair))
                (filter
                   (raisesAlert calculateDistance now minAlertMag activeAlerts)
                   (list_prod quakes zones))).
  { rewrite newAlertsOf_flat_map.
    induction quakes as [|q quakes IH]; simpl; [reflexivity|].
    now rewrite filter_app, map_app, IH, pairs_of_quake. }
  split; [exact E|].
  rewrite E, length_map, <- length_prod. apply filter_length_le.
Qed.

(** X2 (threshold boundary).  An event whose magnitude equals
    [minAlertMag] is not below the threshold: it raises an alert for a zone
    it lies in, when it is recent and the pair is not active yet; and no
    new alert carries a magnitude below the threshold. *)
Theorem threshold_boundary_qualifies
    (calculateDistance : number -> number -> number -> number -> number)
    (now minAlertMag : number) (activeAlerts : list AlertNotification)
    (quakes : list EarthquakeFeature) (zones : list AlertZone)
    (quake : EarthquakeFeature) (zone : AlertZone) :
  In quake quakes -> In zone zones ->
  JSNumber.strictEq (Feature.mag (Feature.properties quake)) minAlertMag
  = true ->
  tooOld now quake = false ->
  insideZone calculateDistance quake zone = true ->
  alreadyAlerted activeAlerts (alertId quake zone) = false ->
  In (mkAlert quake zone)
    (newAlertsOf calculateDistance now minAlertMag activeAlerts quakes zones)
  /\
  Forall (fun a => JSNumber.lt (Alert.mag a) minAlertMag = false)
    (newAlertsOf calculateDistance now minAlertMag activeAlerts quakes zones).
Proof.
  intros Hq Hz Hmag Hold Hin Hfresh. split.
  - apply In_newAlertsOf. exists quake, zone. repeat split; try assumption.
    unfold belowThreshold. now apply JSNumberFacts.strictEq_not_lt.
  - apply Forall_forall. intros a Ha. apply In_newAlertsOf in Ha.
    destruct Ha as (q & z & _ & _ & Hm & _ & _ & _ & ->). exact Hm.
Qed.

Lemma threshold_boundary_qualifies_witness :
  let atThreshold :=
    Examples.mkQuake "us7000edge" 3.0 1699999999000 23.81 90.41 in
  In (mkAlert atThreshold Examples.dhaka)
    (newAlertsOf Examples.flatDistance Examples.now Examples.threshold []
       [atThreshold] [Examples.dhaka]).
Proof.
  cbv zeta.
  apply (threshold_boundary_qualifies Examples.flatDistance Examples.now
           Examples.threshold [] _ [Examples.dhaka] _ Examples.dhaka).
  - now left.
  - now left.
  - vm_compute. reflexivity.
  - vm_compute. reflexivity.
  - vm_compute. reflexivity.
  - vm_compute. reflexivity.
Defined.

(** X3 (a higher threshold only removes alerts).  With everything else
    fixed, every alert that is new under a threshold is new under any
    lower one. *)
Theorem raising_threshold_only_removes
    (calculateDistance : number -> number -> number -> number -> number)
    (now lower higher : number) (activeAlerts : list AlertNotification)
    (quakes : list EarthquakeFeature) (zones : list AlertZone)
    (a : AlertNotification) :
  JSNumber.le lower higher = true ->
  In a (newAlertsOf calculateDistance now higher activeAlerts quakes zones) ->
  In a (newAlertsOf calculateDistance now lower activeAlerts quakes zones).
Proof.
  intros Hle Ha. apply In_newAlertsOf in Ha. apply In_newAlertsOf.
  destruct Ha as (q & z & Hq & Hz & Hm & Ho & Hi & Hf & ->).
  exists q, z. repeat split; try assumption.
  unfold belowThreshold in *.
  destruct (JSNumber.lt (Feature.mag (Feature.properties q)) lower) eqn:E;
    [|reflexivity].
  rewrite (JSNumberOrder.lt_le_trans _ _ _ E Hle) in Hm. discriminate.
Qed.

Lemma raising_threshold_only_removes_witness :
  JSNumber.le 2.5 Examples.threshold = true /\
  In (mkAlert Examples.fresh Examples.dhaka)
    (newAlertsOf Examples.flatDistance Examples.now 2.5 []
       [Examples.fresh] [Examples.dhaka]).
Proof.
  split; [vm_compute; reflexivity|].
  apply (raising_threshold_only_removes Examples.flatDistance Examples.now
           _ Examples.threshold).
  - vm_compute. reflexivity.
  - left. vm_compute. reflexivity.
Defined.

Lemma dash_splits_once (s s' t t' : string) :
  dashFree s = true -> dashFree s' = true ->
  (s ++ "-" ++ t)%string = (s' ++ "-" ++ t')%string ->
  s = s' /\ t = t'.
Proof.
  revert s'. induction s as [|c s IH]; intros [|c' s'] Hs Hs' E;
    simpl in *.
  - injection E as ->. now split.
  - injection E as <- _. simpl in Hs'. discriminate.
  - injection E as -> _. simpl in Hs. discriminate.
  - injection E as -> E.
    apply andb_true_iff in Hs, Hs'.
    destruct (IH s' (proj2 Hs) (proj2 Hs') E) as [-> ->]. now split.
Qed.

Lemma NoDup_map_on (A B : Type) (key : A -> B) (items : list A)
    (Hinj : forall x y, In x items -> In y items -> key x = key y -> x = y)
    (Hnd : NoDup items) :
  NoDup (map key items).
Proof.
  induction Hnd as [|x l Hx Hnd IH]; simpl; constructor.
  - rewrite in_map_iff. intros (y & E & Hy).
    apply Hx. rewrite <- (Hinj y x); auto using in_eq, in_cons.
  - apply IH. intros y z Hy Hz. apply Hinj; now right.
Qed.

Lemma NoDup_map_filter (A B : Type) (key : A -> B) (keep : A -> bool)
    (items : list A) (Hkeys : NoDup (map key items)) :
  NoDup (map key (filter keep items)).
Proof.
  revert Hkeys. induction items as [|x l IH]; simpl; [trivial|].
  intros H. inversion_clear H as [|? ? Hx Hnd].
  destruct (keep x); simpl; [constructor|]; auto.
  rewrite in_map_iff in *. intros (y & E & Hy). apply Hx.
  exists y. split; [assumption|]. now apply filter_In in Hy.
Qed.

Lemma unique_by_id (A : Type) (key : A -> string) (l : list A) (x y : A) :
  NoDup (map key l) -> In x l -> In y l -> key x = key y -> x = y.
Proof.
  induction l as [|a l IH]; simpl; [contradiction|].
  intros Hnd [->|Hx] [->|Hy] E; inversion_clear Hnd as [|? ? Ha Hrest].
  - reflexivity.
  - exfalso. apply Ha. rewrite E. now apply in_map.
  - exfalso. apply Ha. rewrite <- E. now apply in_map.
  - now apply IH.
Qed.

(** X4 (ids stay unique).  Take events with distinct ids without ['-']
    and zones with distinct ids.  A check whose closure holds every id of
    the collection it merges into (so, in particular, a check that reads
    the current collection) keeps the ids of the active alerts pairwise
    distinct; so does a dismissal.  The condition on the closure is
    needed: [stale_closure_emits_again] shows an id held twice without
    it. *)
Theorem alert_ids_stay_unique
    (calculateDistance : number -> number -> number -> number -> number)
    (now minAlertMag : number) (quakes : list EarthquakeFeature)
    (zones : list AlertZone) (captured prev : list AlertNotification) :
  NoDup (map Feature.id quakes) ->
  Forall (fun q => dashFree (Feature.id q) = true) quakes ->
  NoDup (map Zone.id zones) ->
  NoDup (map Alert.id prev) ->
  (forall id, In id (map Alert.id prev) -> In id (map Alert.id captured)) ->
  NoDup (map Alert.id
           (checkZoneAlerts calculateDistance now minAlertMag captured
              quakes zones prev)) /\
  NoDup (map Alert.id
           (evaluationCycle calculateDistance now minAlertMag quakes zones
              prev)) /\
  (forall id, NoDup (map Alert.id (dismissAlert id prev))).
Proof.
  intros Hq Hdash Hz Ha Hcovers.
  assert (Hgen : forall closure,
            (forall id, In id (map Alert.id prev) ->
                        In id (map Alert.id closure)) ->
            NoDup (map Alert.id
                     (checkZoneAlerts calculateDistance now minAlertMag
                        closure quakes zones prev))).
  { intros closure Hcl.
    rewrite checkZoneAlerts_merges, map_app.
    apply NoDup_app; [|exact Ha|].
    + rewrite newAlertsOf_flat_map.
      replace (flat_map _ quakes) with
        (map (fun pair => mkAlert (fst pair) (snd pair))
           (filter (raisesAlert calculateDistance now minAlertMag closure)
              (list_prod quakes zones))).
      2:{ clear. induction quakes as [|q quakes IH]; simpl; [reflexivity|].
          now rewrite filter_app, map_app, IH, pairs_of_quake. }
      rewrite map_map. simpl.
      apply (NoDup_map_filter _ _ (fun pair => alertId (fst pair) (snd pair))).
      apply NoDup_map_on.
      * intros [q z] [q' z'] Hin Hin' E. simpl in E.
        apply in_prod_iff in Hin, Hin'.
        destruct Hin as [Hq1 Hz1], Hin' as [Hq2 Hz2].
        rewrite Forall_forall in Hdash.
        apply dash_splits_once in E; auto.
        destruct E as [Eq Ez]. f_equal.
        -- now apply (unique_by_id _ Feature.id quakes).
        -- now apply (unique_by_id _ Zone.id zones).
      * apply NoDup_map_inv in Hq, Hz.
        clear - Hq Hz. induction Hq as [|q quakes Hq' Hq IH]; simpl;
          [constructor|].
        apply NoDup_app; [|exact IH|].
        -- apply NoDup_map_on; [|exact Hz]. intros z z' _ _ E. congruence.
        -- intros [q' z'] H1 H2. apply in_map_iff in H1.
           destruct H1 as (z & E & _). injection E as <- <-.
           apply in_prod_iff in H2. tauto.
    + intros id Hnew Hact. apply Hcl in Hact. rewrite in_map_iff in Hnew.
      destruct Hnew as (a & <- & Hnew). apply In_newAlertsOf in Hnew.
      destruct Hnew as (q & z & _ & _ & _ & _ & _ & Hfresh & ->).
      unfold alreadyAlerted in Hfresh. simpl in Hact.
      destruct (find _ closure) eqn:F; [discriminate|].
      apply find_id_none in F. contradiction. }
  split; [now apply Hgen|]. split.
  - unfold evaluationCycle. apply Hgen. auto.
  - intros id. unfold dismissAlert. now apply NoDup_map_filter.
Qed.

Lemma alert_ids_stay_unique_witness :
  NoDup (map Alert.id
           (checkZoneAlerts Examples.flatDistance Examples.now
              Examples.threshold
              [mkAlert Examples.fresh Examples.dhaka;
               mkAlert Examples.dayOld Examples.equator]
              [Examples.fresh; Examples.dayOld]
              [Examples.dhaka; Examples.equator]
              [mkAlert Examples.fresh Examples.dhaka])).
Proof.
  apply (alert_ids_stay_unique Examples.flatDistance Examples.now
           Examples.threshold [Examples.fresh; Examples.dayOld]
           [Examples.dhaka; Examples.equator]
           [mkAlert Examples.fresh Examples.dhaka;
            mkAlert Examples.dayOld Examples.equator]
           [mkAlert Examples.fresh Examples.dhaka]).
  - repeat constructor; simpl; intuition discriminate.
  - repeat constructor.
  - repeat constructor; simpl; intuition discriminate.
  - repeat constructor; simpl; tauto.
  - simpl. tauto.
Defined.

(** X5 (an alert names its pair).  Whatever checks and dismissals the
    application has run since it started with no alert, every active alert
    has the id [`${quakeId}-${zoneId}`] of its own two references. *)
Theorem active_alerts_name_their_pair
    (calculateDistance : number -> number -> number -> number -> number)
    (actions : list AlertsAction) :
  Forall (fun a =>
            Alert.id a
            = (Alert.quakeId a ++ "-" ++ Alert.zoneId a)%string)
    (runAlertsActions calculateDistance actions []).
Proof.
  unfold runAlertsActions.
  assert (H : Forall (fun a =>
            Alert.id a
            = (Alert.quakeId a ++ "-" ++ Alert.zoneId a)%string)
            (@nil AlertNotification)) by constructor.
  revert H. generalize (@nil AlertNotification) as alerts.
  induction actions as [|action actions IH]; intros alerts H; simpl;
    [exact H|].
  apply IH. destruct action as [now minAlertMag captured quakes zones|id];
    simpl.
  - rewrite checkZoneAlerts_merges. apply Forall_app. split; [|exact H].
    apply Forall_forall. intros a Ha. apply In_newAlertsOf in Ha.
    destruct Ha as (q & z & _ & _ & _ & _ & _ & _ & ->). reflexivity.
  - apply Forall_forall. intros a Ha. apply dismissAlert_In in Ha.
    rewrite Forall_forall in H. now apply H.
Qed.

(** X6 (a check on the store after a deletion).  The list that
    [deleteZone(id)] leaves has no zone with that id, and a check that is
    handed this list (as the re-check effect hands it) adds no alert for
    the zone [id]; the alerts already raised, those of the deleted zone
    included, stay in the collection.  A check that is handed an older
    zone list, as the interval's is, is not covered. *)
Theorem deleted_zone_raises_no_alert
    (calculateDistance : number -> number -> number -> number -> number)
    (now minAlertMag : number) (activeAlerts prev : list AlertNotification)
    (quakes : list EarthquakeFeature) (zones : list AlertZone)
    (id : string) :
  let remaining := deleteZone id zones in
  let newAlerts :=
    newAlertsOf calculateDistance now minAlertMag activeAlerts quakes
      remaining in
  ~ In id (map Zone.id remaining) /\
  Forall (fun a => Alert.zoneId a <> id) newAlerts /\
  checkZoneAlerts calculateDistance now minAlertMag activeAlerts quakes
    remaining prev
  = newAlerts ++ prev.
Proof.
  cbv zeta.
  assert (Hgone : forall z, In z (deleteZone id zones) -> Zone.id z <> id).
  { intros z Hz. unfold deleteZone in Hz. apply filter_In in Hz.
    destruct Hz as [_ Hz].
    destruct (String.eqb_spec (Zone.id z) id); [discriminate|assumption]. }
  split; [|split; [|apply checkZoneAlerts_merges]].
  - rewrite in_map_iff. intros (z & E & Hz). now apply (Hgone z).
  - apply Forall_forall. intros a Ha. apply In_newAlertsOf in Ha.
    destruct Ha as (q & z & _ & Hz & _ & _ & _ & _ & ->). simpl.
    now apply Hgone.
Qed.

(** X7 (the map follows the alerts).  When a cycle raises the alert of a
    pair, the map flags both its zone and its event as alerted. *)
Theorem raised_pair_is_flagged_on_map
    (calculateDistance : number -> number -> number -> number -> number)
    (now minAlertMag : number) (activeAlerts : list AlertNotification)
    (quakes : list EarthquakeFeature) (zones : list AlertZone)
    (quake : EarthquakeFeature) (zone : AlertZone) :
  In quake quakes -> In zone zones ->
  raisesAlert calculateDistance now minAlertMag activeAlerts (quake, zone)
  = true ->
  let merged :=
    evaluationCycle calculateDistance now minAlertMag quakes zones
      activeAlerts in
  isZoneAlerted merged (Zone.id zone) = true /\
  isQuakeAlerted merged (Feature.id quake) = true.
Proof.
  intros Hq Hz Hraise. cbv zeta.
  assert (Hin : In (mkAlert quake zone)
                  (evaluationCycle calculateDistance now minAlertMag quakes
                     zones activeAlerts)).
  { unfold evaluationCycle. rewrite checkZoneAlerts_merges.
    apply in_or_app. left. apply In_newAlertsOf. exists quake, zone.
    unfold raisesAlert in Hraise. simpl in Hraise.
    rewrite !andb_true_iff, !negb_true_iff in Hraise. tauto. }
  unfold isZoneAlerted, isQuakeAlerted. rewrite !existsb_exists.
  split; exists (mkAlert quake zone); simpl;
    (split; [assumption | apply String.eqb_refl]).
Qed.

Lemma raised_pair_is_flagged_on_map_witness :
  isZoneAlerted
    (evaluationCycle Examples.flatDistance Examples.now Examples.threshold
       [Examples.fresh] [Examples.hiddenDhaka] [])
    (Zone.id Examples.hiddenDhaka) = true.
Proof.
  apply (raised_pair_is_flagged_on_map Examples.flatDistance Examples.now
           Examples.threshold [] [Examples.fresh] [Examples.hiddenDhaka]
           Examples.fresh Examples.hiddenDhaka).
  - now left.
  - now left.
  - vm_compute. reflexivity.
Defined.

(* ------------------------------------------------------------------ *)
(** * More about the monitors *)

Lemma playAlertSiren_not_speech (window : Window) (settings : Settings) :
  filter onSpeech (playAlertSiren window settings) = [] /\
  filter (fun e => negb (onSpeech e)) (playAlertSiren window settings)
  = playAlertSiren window settings.
Proof.
  unfold playAlertSiren.
  destruct (_ || _); [now split|]. now destruct (audioContext window).
Qed.

Lemma speakAlert_only_speech (window : Window) (settings : Settings)
    (text : string) :
  filter onSpeech (speakAlert window settings text)
  = speakAlert window settings text /\
  filter (fun e => negb (onSpeech e)) (speakAlert window settings text) = [].
Proof. unfold speakAlert. now destruct (speechSynthesis window). Qed.

(** X8 (the voice and the siren are independent channels).  What the
    alert monitor does on the speech interface depends on the voice
    switch, the volume and the browser's speech synthesis only: not on
    the master sound switch, the siren switch or the audio context.  What
    it plays as a tone depends on the master switch, the siren switch, the
    volume and the audio context only: not on the voice switch. *)
Theorem voice_and_siren_are_independent
    (numberToString : number -> string) (window window' : Window)
    (settings settings' : Settings)
    (activeAlerts : list AlertNotification) (prevAlertCount : nat) :
  volume settings = volume settings' ->
  (speechSynthesis window = speechSynthesis window' ->
   voiceAlertEnabled settings = voiceAlertEnabled settings' ->
   filter onSpeech
     (fst (alertMonitor numberToString window settings activeAlerts
             prevAlertCount))
   = filter onSpeech
       (fst (alertMonitor numberToString window' settings' activeAlerts
               prevAlertCount))) /\
  (audioContext window = audioContext window' ->
   isSoundEnabled settings = isSoundEnabled settings' ->
   sirenEnabled settings = sirenEnabled settings' ->
   filter (fun e => negb (onSpeech e))
     (fst (alertMonitor numberToString window settings activeAlerts
             prevAlertCount))
   = filter (fun e => negb (onSpeech e))
       (fst (alertMonitor numberToString window' settings' activeAlerts
               prevAlertCount))).
Proof.
  intros Hvol. unfold alertMonitor. simpl fst.
  destruct (prevAlertCount <? List.length activeAlerts); [|now split].
  rewrite !filter_app.
  rewrite !(proj1 (playAlertSiren_not_speech _ _)),
          !(proj2 (playAlertSiren_not_speech _ _)).
  split.
  - intros Hsp Hvoice. rewrite Hvoice.
    destruct (voiceAlertEnabled settings' && _); [|reflexivity].
    destruct activeAlerts as [|latest rest]; [reflexivity|].
    unfold speakAlert. rewrite Hsp, Hvol. reflexivity.
  - intros Haudio Hsound Hsiren.
    assert (E : forall (w : Window) (s : Settings),
              filter (fun e => negb (onSpeech e))
                (if voiceAlertEnabled s && (0 <? List.length activeAlerts)
                 then match activeAlerts with
                      | [] => []
                      | latestAlert :: _ =>
                          speakAlert w s (alertText numberToString latestAlert)
                      end
                 else []) = []).
    { intros w s. destruct (_ && _); [|reflexivity].
      destruct activeAlerts; [reflexivity|].
      apply speakAlert_only_speech. }
    rewrite !E, !app_nil_r. unfold playAlertSiren.
    now rewrite Haudio, Hsound, Hsiren, Hvol.
Qed.

Lemma voice_and_siren_are_independent_witness :
  let soundOff :=
    {| isSoundEnabled := false; volume := 1.0; sirenEnabled := true;
       quakeSoundEnabled := true; voiceAlertEnabled := true |} in
  let alerts := [mkAlert Examples.fresh Examples.dhaka] in
  filter onSpeech
    (fst (alertMonitor Examples.showNumber Examples.browser soundOff
            alerts 0))
  = filter onSpeech
      (fst (alertMonitor Examples.showNumber Examples.browser
              Examples.settings alerts 0)).
Proof.
  cbv zeta.
  apply (voice_and_siren_are_independent Examples.showNumber
           Examples.browser Examples.browser _ Examples.settings
           [mkAlert Examples.fresh Examples.dhaka] 0); reflexivity.
Defined.

(** X9 (a dismissal is silent).  After the monitor has seen a collection,
    dismissing an alert from it triggers neither the siren nor the voice;
    the monitor records the new, not larger, count. *)
Theorem dismissal_is_silent (numberToString : number -> string)
    (window : Window) (settings : Settings)
    (activeAlerts : list AlertNotification) (id : string) :
  let run :=
    alertMonitor numberToString window settings
      (dismissAlert id activeAlerts) (List.length activeAlerts) in
  fst run = [] /\
  snd run = List.length (dismissAlert id activeAlerts) /\
  snd run <= List.length activeAlerts.
Proof.
  cbv zeta. unfold alertMonitor. simpl fst. simpl snd.
  assert (H : List.length (dismissAlert id activeAlerts)
              <= List.length activeAlerts) by apply filter_length_le.
  repeat split; [|exact H].
  destruct (Nat.ltb_spec (List.length activeAlerts)
              (List.length (dismissAlert id activeAlerts))); [lia|reflexivity].
Qed.

(** X10 (a re-run plays nothing).  Both monitors run again whenever a
    sound setting changes.  Such a re-run on the same alerts, or on the
    same event list, produces no effect whatever the new settings are;
    for the event list this also holds after an empty list came in
    between, because an empty list leaves the recorded id untouched. *)
Theorem rerun_after_settings_change_is_silent
    (numberToString : number -> string)
    (window window' window'' : Window) (settings settings' settings'' : Settings)
    (activeAlerts : list AlertNotification) (prevAlertCount : nat)
    (earthquakes : list EarthquakeFeature) (prevLatestQuakeId : option string) :
  let count :=
    snd (alertMonitor numberToString window settings activeAlerts
           prevAlertCount) in
  let latestId :=
    snd (significantQuakeMonitor window settings earthquakes
           prevLatestQuakeId) in
  fst (alertMonitor numberToString window' settings' activeAlerts count)
  = [] /\
  fst (significantQuakeMonitor window' settings' earthquakes latestId) = [] /\
  fst (significantQuakeMonitor window' settings' earthquakes
         (snd (significantQuakeMonitor window'' settings'' [] latestId)))
  = [].
Proof.
  cbv zeta. unfold alertMonitor. simpl fst. simpl snd.
  rewrite Nat.ltb_irrefl. split; [reflexivity|].
  unfold significantQuakeMonitor.
  destruct earthquakes as [|latest rest]; simpl; [now split|].
  rewrite String.eqb_refl, andb_false_r. now split.
Qed.

(* ------------------------------------------------------------------ *)
(** * More about the zone store and the zone form *)

Lemma map_id_same (A : Type) (f : A -> A) (l : list A) :
  (forall x, In x l -> f x = x) -> map f l = l.
Proof.
  induction l as [|x l IH]; simpl; intros H; [reflexivity|].
  rewrite (H x) by now left. f_equal. apply IH. intros y Hy. apply H.
  now right.
Qed.

Lemma updateZone_ids (updatedZone : AlertZone) (zones : list AlertZone) :
  map Zone.id (updateZone updatedZone zones) = map Zone.id zones.
Proof.
  unfold updateZone. rewrite map_map. apply map_ext. intros z.
  destruct (String.eqb_spec (Zone.id z) (Zone.id updatedZone)); congruence.
Qed.

Lemma toggleZoneVisibility_ids (id : string) (zones : list AlertZone) :
  map Zone.id (toggleZoneVisibility id zones) = map Zone.id zones.
Proof.
  unfold toggleZoneVisibility. rewrite map_map. apply map_ext. intros z.
  now destruct (String.eqb (Zone.id z) id).
Qed.

(** X11 (toggling visibility).  [toggleZoneVisibility(id)] flips what the
    map shows for the zones with that id, a zone without the flag counting
    as shown; it changes nothing else in any zone; toggling twice shows
    the zones as before. *)
Theorem toggle_flips_what_is_shown (id : string) (zones : list AlertZone) :
  map shownOnMap (toggleZoneVisibility id zones)
  = map (fun z => if String.eqb (Zone.id z) id
                  then negb (shownOnMap z) else shownOnMap z) zones /\
  Forall2 sameButVisibility zones (toggleZoneVisibility id zones) /\
  map shownOnMap (toggleZoneVisibility id (toggleZoneVisibility id zones))
  = map shownOnMap zones.
Proof.
  assert (H1 : forall zs,
            map shownOnMap (toggleZoneVisibility id zs)
            = map (fun z => if String.eqb (Zone.id z) id
                            then negb (shownOnMap z) else shownOnMap z) zs).
  { intros zs. unfold toggleZoneVisibility. rewrite map_map.
    apply map_ext. intros z. destruct (String.eqb (Zone.id z) id);
      [|reflexivity].
    unfold shownOnMap. simpl. now destruct (Zone.isVisible z) as [[|]|]. }
  split; [apply H1|]. split.
  - unfold toggleZoneVisibility.
    induction zones as [|z zones IH]; simpl; constructor; [|exact IH].
    destruct (String.eqb (Zone.id z) id); reflexivity.
  - rewrite H1. unfold toggleZoneVisibility at 1. rewrite map_map.
    apply map_ext_in. intros z _.
    destruct (String.eqb (Zone.id z) id) eqn:E; simpl; rewrite E;
      [|reflexivity].
    unfold shownOnMap. simpl. now destruct (Zone.isVisible z) as [[|]|].
Qed.

(** X12 (adding then deleting).  [addZone] appends the zone with
    [isVisible: true], whatever flag it came with; deleting the id of the
    zone just added gives the store back when that id was not in use. *)
Theorem add_then_delete_restores (zone : AlertZone) (zones : list AlertZone) :
  ~ In (Zone.id zone) (map Zone.id zones) ->
  addZone zone zones = zones ++ [withVisibility (Some true) zone] /\
  deleteZone (Zone.id zone) (addZone zone zones) = zones.
Proof.
  intros Hfresh. split; [reflexivity|].
  unfold deleteZone, addZone. rewrite filter_app. simpl.
  rewrite String.eqb_refl. simpl. rewrite app_nil_r.
  induction zones as [|z zones IH]; simpl in *; [reflexivity|].
  destruct (String.eqb_spec (Zone.id z) (Zone.id zone)) as [E|E]; simpl.
  - exfalso. apply Hfresh. now left.
  - f_equal. apply IH. tauto.
Qed.

Lemma add_then_delete_restores_witness :
  deleteZone (Zone.id Examples.equator)
    (addZone Examples.equator [Examples.hiddenDhaka])
  = [Examples.hiddenDhaka].
Proof.
  apply (add_then_delete_restores Examples.equator [Examples.hiddenDhaka]).
  simpl. intuition discriminate.
Defined.

(** X13 (opening the editor and saving changes nothing).  With unique
    ids in the store, [handleEditZone] on a stored zone followed at once by
    [saveZone] leaves the store exactly as it was, the visibility flag
    included. *)
Theorem edit_then_save_changes_nothing (numberToString : number -> string)
    (now : number) (zones : list AlertZone) (zone : AlertZone) :
  In zone zones ->
  NoDup (map Zone.id zones) ->
  truthyString (Zone.id zone) = true ->
  applyZoneCallback
    (saveZone numberToString now zones (handleEditZone zone)) zones
  = zones.
Proof.
  intros Hin Hnd Hid. unfold saveZone, handleEditZone. simpl.
  destruct (truthyString (Zone.name zone)); [|reflexivity].
  rewrite Hid. simpl.
  destruct (find _ zones) as [z0|] eqn:F.
  - apply find_some in F. destruct F as [Hz0 E0].
    apply String.eqb_eq in E0.
    assert (z0 = zone) as -> by now apply (unique_by_id _ Zone.id zones).
    replace {| Zone.id := Zone.id zone; Zone.name := Zone.name zone;
               Zone.lat := Zone.lat zone; Zone.lng := Zone.lng zone;
               Zone.radiusKm := Zone.radiusKm zone;
               Zone.isVisible := Zone.isVisible zone |}
      with zone by now destruct zone.
    unfold updateZone. apply map_id_same. intros z Hz.
    destruct (String.eqb_spec (Zone.id z) (Zone.id zone)) as [E|E];
      [|reflexivity].
    symmetry. now apply (unique_by_id _ Zone.id zones).
  - exfalso. apply (find_none _ _ F) in Hin. simpl in Hin.
    rewrite String.eqb_refl in Hin. discriminate.
Qed.

Lemma edit_then_save_changes_nothing_witness :
  applyZoneCallback
    (saveZone Examples.showNumber Examples.now
       [Examples.hiddenDhaka; Examples.equator]
       (handleEditZone Examples.hiddenDhaka))
    [Examples.hiddenDhaka; Examples.equator]
  = [Examples.hiddenDhaka; Examples.equator].
Proof.
  apply (edit_then_save_changes_nothing Examples.showNumber Examples.now
           [Examples.hiddenDhaka; Examples.equator] Examples.hiddenDhaka).
  - now left.
  - repeat constructor; simpl; intuition discriminate.
  - reflexivity.
Defined.



(** X15 (zone ids stay unique).  Update, visibility toggle and deletion
    keep the ids of the store pairwise distinct; so does [addZone] of a
    zone whose id is not in use. *)
Theorem zone_ids_stay_unique (zones : list AlertZone) (zone : AlertZone)
    (id : string) :
  NoDup (map Zone.id zones) ->
  NoDup (map Zone.id (updateZone zone zones)) /\
  NoDup (map Zone.id (toggleZoneVisibility id zones)) /\
  NoDup (map Zone.id (deleteZone id zones)) /\
  (~ In (Zone.id zone) (map Zone.id zones) ->
   NoDup (map Zone.id (addZone zone zones))).
Proof.
  intros Hnd. rewrite updateZone_ids, toggleZoneVisibility_ids.
  repeat split; try assumption.
  - unfold deleteZone. now apply NoDup_map_filter.
  - intros Hfresh. unfold addZone. rewrite map_app. simpl.
    apply NoDup_app; [assumption | repeat constructor; simpl; tauto |].
    intros x Hx [<-|[]]. contradiction.
Qed.

Lemma zone_ids_stay_unique_witness :
  NoDup (map Zone.id
           (deleteZone "1699990000001"
              [Examples.hiddenDhaka; Examples.equator])).
Proof.
  apply (zone_ids_stay_unique [Examples.hiddenDhaka; Examples.equator]
           Examples.dhaka "1699990000001").
  repeat constructor; simpl; intuition discriminate.
Defined.

(** X16 (when [saveZone] acts).  [saveZone] calls nothing exactly when no
    location is selected or the name is empty.  After [cancelZoneAdd], and
    after a [saveZone] that acted, the form has no location, so a second
    [saveZone] in a row calls nothing. *)
Theorem saveZone_acts_once (numberToString : number -> string)
    (now : number) (zones : list AlertZone) (form : ZoneForm) :
  (saveZone numberToString now zones form = None <->
   tempZoneLoc form = None \/ newZoneName form = ""%string) /\
  saveZone numberToString now zones (cancelZoneAdd form) = None /\
  saveZone numberToString now zones (saveZoneCleanup form) = None.
Proof.
  assert (Hname : truthyString (newZoneName form) = false
                  <-> newZoneName form = ""%string).
  { unfold truthyString. rewrite negb_false_iff. apply String.eqb_eq. }
  split; [|split; [reflexivity|]].
  - unfold saveZone. destruct (tempZoneLoc form) as [[lat lng]|].
    + destruct (truthyString (newZoneName form)) eqn:E.
      * split.
        -- destruct (editingZoneId form) as [e|];
             [destruct (truthyString e)|]; discriminate.
        -- intros [H|H]; [discriminate|]. apply Hname in H. congruence.
      * split; [|reflexivity]. intros _. right. now apply Hname.
    + split; [now left | reflexivity].
  - unfold saveZoneCleanup, saveZone.
    destruct (tempZoneLoc form) as [[lat lng]|] eqn:El; [|now rewrite El].
    destruct (truthyString (newZoneName form)) eqn:E; [reflexivity|].
    now rewrite El, E.
Qed.

Lemma max_in_range (lo hi m : number) :
  JSNumber.le lo hi = true -> JSMath.isNaN m = false ->
  JSNumber.le m hi = true ->
  JSNumber.le lo (JSMath.max lo m) = true /\
  JSNumber.le (JSMath.max lo m) hi = true.
Proof.
  intros Hlohi Hm Hmhi.
  destruct (JSNumberOrder.le_numbers _ _ Hlohi) as [Hlo _].
  destruct (JSNumberOrder.max_spec lo m Hlo Hm) as ([E|E] & Hl & _);
    split; try exact Hl; now rewrite E.
Qed.

(** X17 (the radius field is clamped).  A value typed into the radius
    field that parses to a number sets a radius between 1 and 200; one
    that does not parse (NaN) leaves the form as it is. *)
Theorem radius_input_is_clamped (val : number) (form : ZoneForm) :
  (JSMath.isNaN val = false ->
   JSNumber.le 1 (newZoneRadius (onRadiusInputChange val form)) = true /\
   JSNumber.le (newZoneRadius (onRadiusInputChange val form)) 200 = true) /\
  (JSMath.isNaN val = true -> onRadiusInputChange val form = form).
Proof.
  unfold onRadiusInputChange. split; intros H; rewrite H; simpl;
    [|reflexivity].
  assert (H200 : JSMath.isNaN 200 = false) by reflexivity.
  destruct (JSNumberOrder.min_spec 200 val H200 H) as ([E|E] & Hhi & _).
  - apply max_in_range; [reflexivity | now rewrite E | exact Hhi].
  - apply max_in_range; [reflexivity | now rewrite E | exact Hhi].
Qed.

(** X18 (marker size and colour).  The marker of an event that is not
    alerted is never smaller than 12 nor larger than 50, and lies between
    the two whenever [mag * 6] is a number; an alerted event gets the alert
    red whatever its magnitude, and its marker is 1.3 times the size. *)
Theorem marker_size_is_clamped (mag : number) (useAnimation : bool) :
  let size := fst (iconSize (createCustomIcon mag false useAnimation)) in
  JSNumber.lt size 12 = false /\ JSNumber.gt size 50 = false /\
  (JSMath.isNaN (mag * 6) = false ->
   JSNumber.le 12 size = true /\ JSNumber.le size 50 = true) /\
  color (createCustomIcon mag true useAnimation) = "#ef4444"%string /\
  iconSize (createCustomIcon mag true useAnimation)
  = ((size * 1.3)%float, (size * 1.3)%float).
Proof.
  cbv zeta. unfold createCustomIcon. simpl.
  assert (Hin : JSMath.isNaN (mag * 6) = false ->
            JSNumber.le 12 (JSMath.max 12 (JSMath.min (mag * 6) 50)) = true /\
            JSNumber.le (JSMath.max 12 (JSMath.min (mag * 6) 50)) 50 = true).
  { intros H. assert (H50 : JSMath.isNaN 50 = false) by reflexivity.
    destruct (JSNumberOrder.min_spec (mag * 6) 50 H H50)
      as ([E|E] & _ & Hhi);
      (apply max_in_range; [reflexivity | now rewrite E | exact Hhi]). }
  destruct (JSMath.isNaN (mag * 6)) eqn:E.
  - unfold JSMath.min at 1 2. rewrite E. simpl.
    repeat split; try reflexivity; discriminate.
  - destruct (Hin eq_refl) as [H12 H50].
    repeat split; try assumption; try reflexivity.
    + now apply JSNumberOrder.le_not_lt.
    + now apply JSNumberOrder.le_not_lt.
Qed.

(* ------------------------------------------------------------------ *)
(** * The list view *)

(** X19 (toggling an event type).  [toggleType] flips the membership of
    the type in the selection and of no other; a selection without
    repetition stays so. *)
Theorem toggleType_flips_membership (type : string) (prev : list string) :
  (In type (toggleType type prev) <-> ~ In type prev) /\
  (forall t, t <> type -> (In t (toggleType type prev) <-> In t prev)) /\
  (NoDup prev -> NoDup (toggleType type prev)).
Proof.
  unfold toggleType.
  destruct (existsb (String.eqb type) prev) eqn:E.
  - apply existsb_exists in E. destruct E as (t & Ht & E).
    apply String.eqb_eq in E. subst t.
    split; [|split].
    + rewrite filter_In, String.eqb_refl. simpl. intuition discriminate.
    + intros t Hne. rewrite filter_In.
      destruct (String.eqb_spec t type); simpl; intuition congruence.
    + apply NoDup_filter.
  - assert (Hnot : ~ In type prev).
    { intros H. apply not_true_iff_false in E. apply E.
      apply existsb_exists. exists type. split; [assumption|].
      apply String.eqb_refl. }
    split; [|split].
    + rewrite in_app_iff. simpl. tauto.
    + intros t Hne. rewrite in_app_iff. simpl. intuition congruence.
    + intros Hnd. apply NoDup_app; [assumption | repeat constructor; simpl; tauto |].
      intros t Ht [<-|[]]. contradiction.
Qed.

Section NearestFacts.

Variable calculateDistance : number -> number -> number -> number -> number.
Variable location : LocationState.

Let distance (q : EarthquakeFeature) : number :=
  calculateDistance (userLat location) (userLng location)
    (Feature.coordinates1 (Feature.geometry q))
    (Feature.coordinates0 (Feature.geometry q)).

(** The loop invariant of the search for the nearest event. *)
Lemma nearest_loop (l : list EarthquakeFeature)
    (acc : option EarthquakeFeature * number) :
  let r := fold_left (nearestStep calculateDistance location) l acc in
  (forall q, In q l -> JSNumber.lt (distance q) (snd r) = false) /\
  (snd r = snd acc \/ JSNumber.lt (snd r) (snd acc) = true) /\
  (r = acc \/ exists q, In q l /\ r = (Some q, distance q)).
Proof.
  cbv zeta. revert acc. induction l as [|x l IH]; intros acc; simpl.
  - repeat split; auto. intros q [].
  - destruct (IH (nearestStep calculateDistance location acc x))
      as (Hall & Hle & Hwho).
    set (r := fold_left (nearestStep calculateDistance location) l
                (nearestStep calculateDistance location acc x)) in *.
    assert (Hstep :
      (nearestStep calculateDistance location acc x = acc /\
       JSNumber.lt (distance x) (snd acc) = false) \/
      (nearestStep calculateDistance location acc x = (Some x, distance x) /\
       JSNumber.lt (distance x) (snd acc) = true)).
    { unfold nearestStep. fold (distance x).
      destruct (JSNumber.lt (distance x) (snd acc)); auto. }
    assert (Hle' : snd r = snd acc \/ JSNumber.lt (snd r) (snd acc) = true).
    { destruct Hstep as [[E _]|[E Hlt]]; rewrite E in Hle; [exact Hle|].
      simpl in Hle. right. destruct Hle as [->|Hle]; [exact Hlt|].
      now apply (JSNumberOrder.lt_trans _ (distance x)). }
    split; [|split; [exact Hle'|]].
    + intros q [<-|Hq]; [|now apply Hall].
      destruct Hstep as [[E Hnot]|[E Hlt]]; rewrite E in Hle.
      * destruct Hle' as [->|Hlt']; [exact Hnot|].
        destruct (JSNumber.lt (distance x) (snd r)) eqn:F; [|reflexivity].
        rewrite (JSNumberOrder.lt_trans _ _ _ F Hlt') in Hnot. discriminate.
      * simpl in Hle. destruct Hle as [->|Hle].
        -- destruct (JSNumber.lt (distance x) (distance x)) eqn:F;
             [|reflexivity].
           pose proof (JSNumberOrder.lt_le_trans _ _ _ F
                         (JSNumberOrder.le_refl _
                            (proj1 (JSNumberOrder.lt_numbers _ _ F)))) as F'.
           apply JSNumberOrder.lt_cmp in F.
           pose proof (JSNumberOrder.lt_numbers _ _ F') as [Hn _].
           apply JSNumberOrder.isNaN_cmp in Hn. congruence.
        -- now apply JSNumberOrder.le_not_lt, JSNumberOrder.le_cmp; left;
             apply JSNumberOrder.lt_cmp.
    + destruct Hwho as [E|(q & Hq & E)].
      * destruct Hstep as [[E' _]|[E' _]]; rewrite E' in E; [now left|].
        right. exists x. split; [now left | exact E].
      * right. exists q. split; [now right | exact E].
Qed.

End NearestFacts.

(** X20 (the nearest event).  With a user location, no event of the list
    is strictly nearer than the distance [stats] reports; the event it
    reports is in the list and lies at that distance, and when it reports
    none, no event has a distance below [Infinity]. *)
Theorem stats_nearest_is_nearest
    (calculateDistance : number -> number -> number -> number -> number)
    (earthquakes : list EarthquakeFeature) (location : LocationState)
    (result : Stats) :
  stats calculateDistance earthquakes (Some location) = Some result ->
  let distance q :=
    calculateDistance (userLat location) (userLng location)
      (Feature.coordinates1 (Feature.geometry q))
      (Feature.coordinates0 (Feature.geometry q)) in
  (forall q, In q earthquakes ->
     JSNumber.lt (distance q) (minDist result) = false) /\
  match nearest result with
  | Some q => In q earthquakes /\ minDist result = distance q
  | None => minDist result = infinity
  end.
Proof.
  unfold stats. destruct (List.length earthquakes =? 0); [discriminate|].
  intros E. injection E as <-. cbv zeta. simpl.
  destruct (nearest_loop calculateDistance location earthquakes
              (None, infinity)) as (Hall & _ & Hwho).
  split; [exact Hall|].
  destruct Hwho as [->|(q & Hq & ->)]; simpl; [reflexivity|now split].
Qed.

Lemma stats_nearest_is_nearest_witness :
  let here := {| userLat := 23.81; userLng := 90.41 |} in
  exists result,
    stats Examples.flatDistance [Examples.onTheRim; Examples.fresh]
      (Some here) = Some result /\
    nearest result = Some Examples.fresh /\
    JSNumber.lt
      (Examples.flatDistance 23.81 90.41 1 0) (minDist result) = false.
Proof.
  cbv zeta. eexists. split; [reflexivity|]. split; [vm_compute; reflexivity|].
  pose proof (stats_nearest_is_nearest Examples.flatDistance
                [Examples.onTheRim; Examples.fresh]
                {| userLat := 23.81; userLng := 90.41 |} _ eq_refl) as H.
  cbv zeta in H. destruct H as [H _].
  exact (H Examples.onTheRim (or_introl eq_refl)).
Defined.

Lemma neg_infinity_le (x : number) :
  JSMath.isNaN x = false -> JSNumber.le neg_infinity x = true.
Proof.
  intros H. apply JSNumberOrder.le_cmp.
  apply JSNumberOrder.isNaN_cmp in H. unfold compareNumbers in *.
  change (Prim2SF neg_infinity) with (S754_infinity true).
  destruct (Prim2SF x) as [?|[|]| |[|] ? ?]; simpl in *; auto; discriminate.
Qed.

Lemma le_antisym (x y : number) :
  JSNumber.le x y = true -> JSNumber.le y x = true ->
  JSNumber.strictEq x y = true.
Proof.
  intros H H'. apply JSNumberOrder.strictEq_cmp.
  apply JSNumberOrder.le_not_lt in H'. apply not_true_iff_false in H'.
  rewrite JSNumberOrder.lt_cmp in H'. apply JSNumberOrder.le_cmp in H.
  destruct H; [contradiction|assumption].
Qed.

(** [Math.max] over a list of numbers without NaN, from a start value. *)
Lemma max_loop (l : list number) (acc : number) :
  JSMath.isNaN acc = false ->
  Forall (fun x => JSMath.isNaN x = false) l ->
  let r := fold_left JSMath.max l acc in
  JSMath.isNaN r = false /\ JSNumber.le acc r = true /\
  Forall (fun x => JSNumber.le x r = true) l /\
  (r = acc \/ In r l).
Proof.
  cbv zeta. revert acc. induction l as [|x l IH]; intros acc Hacc Hl; simpl.
  - repeat split; auto using JSNumberOrder.le_refl.
  - inversion_clear Hl as [|? ? Hx Hl'].
    destruct (JSNumberOrder.max_spec acc x Hacc Hx) as (Hor & Ha & Hxm).
    assert (Hm : JSMath.isNaN (JSMath.max acc x) = false)
      by (destruct Hor as [-> | ->]; assumption).
    destruct (IH _ Hm Hl') as (Hr & Hle & Hall & Hwho).
    repeat split.
    + exact Hr.
    + eapply JSNumberOrder.le_trans; eassumption.
    + constructor; [|exact Hall].
      eapply JSNumberOrder.le_trans; eassumption.
    + destruct Hwho as [E|Hin]; [|now right; right].
      rewrite E. destruct Hor as [-> | ->]; [now left | right; now left].
Qed.

Lemma max_loop_nan (l : list number) (acc : number) :
  acc = nan \/ Exists (fun x => JSMath.isNaN x = true) l ->
  fold_left JSMath.max l acc = nan.
Proof.
  revert acc. induction l as [|x l IH]; intros acc H; simpl.
  - destruct H as [H|H]; [exact H | inversion H].
  - apply IH. destruct H as [->|H]; [now left|].
    inversion_clear H as [? ? Hx|? ? Hl]; [left | now right].
    now apply JSNumberOrder.max_nan_r.
Qed.

(** X21 (the strongest event).  [stats] is [null] for an empty list.  For
    a list of events whose magnitudes are all numbers it reports an event
    of the list whose magnitude is the maximum and that no event exceeds;
    as soon as one magnitude is NaN it reports none. *)
Theorem stats_biggest_is_strongest
    (calculateDistance : number -> number -> number -> number -> number)
    (earthquakes : list EarthquakeFeature)
    (userLocation : option LocationState) :
  (earthquakes = [] -> stats calculateDistance earthquakes userLocation = None)
  /\
  (earthquakes <> [] ->
   exists result,
     stats calculateDistance earthquakes userLocation = Some result /\
     count result = List.length earthquakes /\
     (Forall (fun q => JSMath.isNaN (Feature.mag (Feature.properties q))
                       = false) earthquakes ->
      exists q,
        biggest result = Some q /\ In q earthquakes /\
        JSNumber.strictEq (Feature.mag (Feature.properties q))
          (maxMag result) = true /\
        forall q', In q' earthquakes ->
          JSNumber.lt (Feature.mag (Feature.properties q))
            (Feature.mag (Feature.properties q')) = false) /\
     (Exists (fun q => JSMath.isNaN (Feature.mag (Feature.properties q))
                       = true) earthquakes ->
      biggest result = None)).
Proof.
  split; [now intros ->|]. intros Hne. unfold stats.
  destruct earthquakes as [|q0 rest] eqn:El; [contradiction|].
  rewrite <- El in *. assert (Hlen : (List.length earthquakes =? 0) = false)
    by now rewrite El.
  rewrite Hlen. eexists. split; [reflexivity|]. simpl.
  split; [reflexivity|]. unfold JSMath.maxOf.
  set (mags := map (fun q => Feature.mag (Feature.properties q)) earthquakes).
  split.
  - intros Hnum.
    assert (Hmags : Forall (fun x => JSMath.isNaN x = false) mags).
    { unfold mags. apply Forall_forall. intros x Hx.
      apply in_map_iff in Hx. destruct Hx as (q & <- & Hq).
      rewrite Forall_forall in Hnum. now apply Hnum. }
    destruct (max_loop mags neg_infinity eq_refl Hmags)
      as (Hr & Hlow & Hall & Hwho).
    set (m := fold_left JSMath.max mags neg_infinity) in *.
    rewrite Forall_forall in Hall.
    assert (Hex : exists q, In q earthquakes /\
              JSNumber.strictEq (Feature.mag (Feature.properties q)) m
              = true).
    { destruct Hwho as [E|Hin].
      - exists q0. split; [rewrite El; now left|].
        assert (Hq0 : In (Feature.mag (Feature.properties q0)) mags)
          by (unfold mags; rewrite El; now left).
        apply le_antisym; [now apply Hall|].
        rewrite E. apply neg_infinity_le.
        rewrite Forall_forall in Hmags. now apply Hmags.
      - unfold mags in Hin. apply in_map_iff in Hin.
        destruct Hin as (q & E & Hq). exists q. split; [exact Hq|].
        rewrite E. apply JSNumberOrder.strictEq_cmp.
        now apply JSNumberOrder.isNaN_cmp. }
    destruct (find (fun q => JSNumber.strictEq
                               (Feature.mag (Feature.properties q)) m)
                earthquakes) as [q|] eqn:F.
    + apply find_some in F. destruct F as [Hq Heq]. exists q.
      repeat split; try assumption. intros q' Hq'.
      apply JSNumberOrder.le_not_lt.
      apply (JSNumberOrder.le_trans _ m).
      * apply Hall. unfold mags.
        now apply (in_map (fun q => Feature.mag (Feature.properties q))).
      * apply JSNumberOrder.le_cmp. right.
        apply JSNumberOrder.strictEq_cmp in Heq.
        unfold compareNumbers in *. rewrite JSNumberOrder.SFcompare_sym.
        now rewrite Heq.
    + exfalso. destruct Hex as (q & Hq & Heq).
      apply (find_none _ _ F) in Hq. simpl in Hq. congruence.
  - intros Hnan.
    assert (E : fold_left JSMath.max mags neg_infinity = nan).
    { apply max_loop_nan. right. unfold mags.
      apply Exists_exists in Hnan. destruct Hnan as (q & Hq & Hn).
      apply Exists_exists. exists (Feature.mag (Feature.properties q)).
      split; [|exact Hn].
      now apply (in_map (fun q => Feature.mag (Feature.properties q))). }
    rewrite E.
    destruct (find _ earthquakes) as [q|] eqn:F; [|reflexivity].
    apply find_some in F. destruct F as [_ F].
    now rewrite JSNumberOrder.strictEq_nan in F.
Qed.

(* ------------------------------------------------------------------ *)
(** * The region of a place *)

Module RegionNameFacts.
Import RegionName.

Lemma split_nonempty (s : string) : split s <> [].
Proof.
  induction s as [|c s IH]; simpl; [discriminate|].
  destruct (Ascii.eqb c ","); [discriminate|].
  destruct (split s); [contradiction|discriminate].
Qed.

Lemma split_commaFree (s : string) :
  Forall (fun part => commaFree part = true) (split s).
Proof.
  induction s as [|c s IH]; simpl; [now repeat constructor|].
  destruct (Ascii.eqb c ",") eqn:E; [now constructor|].
  destruct (split s) as [|part parts]; [now repeat constructor; simpl; rewrite E|].
  inversion_clear IH as [|? ? Hp Hps]. constructor; [|exact Hps].
  simpl. now rewrite E, Hp.
Qed.

Lemma split_without_comma (s : string) :
  commaFree s = true -> split s = [s].
Proof.
  induction s as [|c s IH]; simpl; [reflexivity|].
  destruct (Ascii.eqb c ","); simpl; [discriminate|].
  intros H. now rewrite (IH H).
Qed.

Lemma split_single (s : string) :
  List.length (split s) <= 1 -> commaFree s = true.
Proof.
  induction s as [|c s IH]; simpl; [reflexivity|].
  pose proof (split_nonempty s) as Hne.
  destruct (Ascii.eqb c ","); simpl.
  - destruct (split s); [contradiction | simpl; lia].
  - destruct (split s) as [|part parts]; [contradiction|]. exact IH.
Qed.

Lemma commaFree_tail (c : ascii) (s : string) :
  commaFree (String c s) = true -> commaFree s = true.
Proof. simpl. intros H. apply andb_true_iff in H. tauto. Qed.

Lemma trimStart_cons (a : ascii) (s1 : string) :
  trimStart (String a s1) =
  if space1 a then trimStart s1
  else match s1 with
       | String b s2 =>
           if space2 a b then trimStart s2
           else match s2 with
                | String c s3 =>
                    if space3 a b c then trimStart s3 else String a s1
                | EmptyString => String a s1
                end
       | EmptyString => String a s1
       end.
Proof. reflexivity. Qed.

Lemma trimStartReversed_cons (c : ascii) (s1 : string) :
  trimStartReversed (String c s1) =
  if space1 c then trimStartReversed s1
  else match s1 with
       | String b s2 =>
           if space2 b c then trimStartReversed s2
           else match s2 with
                | String a s3 =>
                    if space3 a b c then trimStartReversed s3
                    else String c s1
                | EmptyString => String c s1
                end
       | EmptyString => String c s1
       end.
Proof. reflexivity. Qed.

Lemma trimStart_commaFree (s : string) :
  commaFree s = true -> commaFree (trimStart s) = true.
Proof.
  remember (String.length s) as n eqn:En.
  assert (Hn : String.length s <= n) by lia. clear En. revert s Hn.
  induction n as [|n IH]; intros s Hn H.
  - destruct s; [reflexivity | simpl in Hn; lia].
  - destruct s as [|a s1]; [reflexivity|]. rewrite trimStart_cons.
    simpl in Hn. pose proof (commaFree_tail _ _ H) as H1.
    destruct (space1 a); [apply IH; [lia | exact H1]|].
    destruct s1 as [|b s2]; [exact H|].
    simpl in Hn. pose proof (commaFree_tail _ _ H1) as H2.
    destruct (space2 a b); [apply IH; [lia | exact H2]|].
    destruct s2 as [|c s3]; [exact H|].
    simpl in Hn. pose proof (commaFree_tail _ _ H2) as H3.
    destruct (space3 a b c); [apply IH; [lia | exact H3] | exact H].
Qed.

Lemma trimStartReversed_commaFree (s : string) :
  commaFree s = true -> commaFree (trimStartReversed s) = true.
Proof.
  remember (String.length s) as n eqn:En.
  assert (Hn : String.length s <= n) by lia. clear En. revert s Hn.
  induction n as [|n IH]; intros s Hn H.
  - destruct s; [reflexivity | simpl in Hn; lia].
  - destruct s as [|c s1]; [reflexivity|]. rewrite trimStartReversed_cons.
    simpl in Hn. pose proof (commaFree_tail _ _ H) as H1.
    destruct (space1 c); [apply IH; [lia | exact H1]|].
    destruct s1 as [|b s2]; [exact H|].
    simpl in Hn. pose proof (commaFree_tail _ _ H1) as H2.
    destruct (space2 b c); [apply IH; [lia | exact H2]|].
    destruct s2 as [|a s3]; [exact H|].
    simpl in Hn. pose proof (commaFree_tail _ _ H2) as H3.
    destruct (space3 a b c); [apply IH; [lia | exact H3] | exact H].
Qed.

Lemma reverse_commaFree (s acc : string) :
  commaFree (reverse s acc) = commaFree s && commaFree acc.
Proof.
  revert acc. induction s as [|c s IH]; intros acc; simpl; [reflexivity|].
  rewrite IH. simpl. destruct (Ascii.eqb c ","); simpl;
    [now rewrite andb_false_r | reflexivity].
Qed.

Lemma trim_commaFree (s : string) :
  commaFree s = true -> commaFree (trim s) = true.
Proof.
  intros H. unfold trim. rewrite reverse_commaFree, andb_true_r.
  apply trimStartReversed_commaFree.
  rewrite reverse_commaFree, andb_true_r. now apply trimStart_commaFree.
Qed.

End RegionNameFacts.

(** X22 (the region of a place).  [getRegionName] returns a string
    without a comma; a place without a comma comes back as it is, not even
    trimmed; hence applying the function twice gives what applying it once
    gives. *)
Theorem region_name_has_no_comma (place : string) :
  RegionName.commaFree (RegionName.getRegionName place) = true /\
  (RegionName.commaFree place = true ->
   RegionName.getRegionName place = place) /\
  RegionName.getRegionName (RegionName.getRegionName place)
  = RegionName.getRegionName place.
Proof.
  assert (Hsame : forall s, RegionName.commaFree s = true ->
                    RegionName.getRegionName s = s).
  { intros s H. unfold RegionName.getRegionName.
    destruct (truthyString s) eqn:E; simpl.
    - now rewrite (RegionNameFacts.split_without_comma s H).
    - unfold truthyString in E. apply negb_false_iff in E.
      apply String.eqb_eq in E. now subst. }
  assert (Hfree : RegionName.commaFree (RegionName.getRegionName place)
                  = true).
  { unfold RegionName.getRegionName.
    destruct (truthyString place); cbn [negb]; [|reflexivity]. cbv zeta.
    pose proof (RegionNameFacts.split_commaFree place) as Hparts.
    destruct (2 <=? List.length (RegionName.split place)) eqn:E.
    - apply RegionNameFacts.trim_commaFree.
      destruct (exists_last (RegionNameFacts.split_nonempty place))
        as (front & part & Eparts).
      rewrite Eparts in *. rewrite last_last.
      apply Forall_app in Hparts. destruct Hparts as [_ Hlast].
      now inversion_clear Hlast.
    - apply RegionNameFacts.split_single. apply Nat.leb_gt in E.
      pose proof (RegionNameFacts.split_nonempty place) as Hne.
      destruct (RegionName.split place); [contradiction | simpl in *; lia]. }
  split; [exact Hfree|]. split; [apply Hsame|]. now apply Hsame.
Qed.


(* ------------------------------------------------------------------ *)
(** * Settings across a reload *)

(** X24 (the switches survive a reload).  After the two persisting
    effects have run, whatever the storage held before and in whichever
    order they ran, the switches read at start-up are the ones that were
    set; on an empty storage the four sound switches start on and
    [reduceAnimation] starts off. *)
Theorem switches_survive_reload (numberToString : number -> string)
    (settings : Settings) (reduceAnimation : bool)
    (storage : LocalStorage.Storage) :
  let expected :=
    (isSoundEnabled settings, sirenEnabled settings,
     quakeSoundEnabled settings, voiceAlertEnabled settings,
     reduceAnimation) in
  initialSwitches
    (persistReduceAnimation reduceAnimation
       (persistSoundSettings numberToString settings storage)) = expected /\
  initialSwitches
    (persistSoundSettings numberToString settings
       (persistReduceAnimation reduceAnimation storage)) = expected /\
  initialSwitches [] = (true, true, true, true, false).
Proof.
  cbv zeta. unfold initialSwitches, LocalStorage.notFalse, LocalStorage.isTrue.
  destruct settings as [sound vol siren quake voice]. simpl.
  repeat split;
    destruct sound, siren, quake, voice, reduceAnimation; reflexivity.
Qed.

(* ------------------------------------------------------------------ *)
(** * The periodic refresh *)

(** C2 (idempotence) fails on the periodic refresh.  The interval calls
    the [loadData] of the first render, whose [activeAlerts] is empty, so
    the lookup that should skip a pair already alerted never finds it.
    With the same events, zones, threshold and clock, the tick after the
    load at mount emits every new alert of that load once more, and the
    collection then holds each of them twice; for a pair that qualifies
    the second run is not empty. *)
Theorem interval_tick_emits_again
    (calculateDistance : number -> number -> number -> number -> number)
    (now minAlertMag : number) (quakes : list EarthquakeFeature)
    (zones : list AlertZone) (quake : EarthquakeFeature) (zone : AlertZone) :
  In quake quakes -> In zone zones ->
  belowThreshold minAlertMag quake = false ->
  tooOld now quake = false ->
  insideZone calculateDistance quake zone = true ->
  let mount := mountRender zones minAlertMag in
  let firstRun :=
    newAlertsOf calculateDistance now minAlertMag (renderAlerts mount)
      quakes zones in
  let merged := loadDataCheck calculateDistance mount now quakes [] in
  let secondRun :=
    newAlertsOf calculateDistance now minAlertMag (renderAlerts mount)
      quakes zones in
  merged = firstRun /\
  In (mkAlert quake zone) secondRun /\
  loadDataCheck calculateDistance mount now quakes merged
  = secondRun ++ merged /\
  List.length
    (filter (fun a => String.eqb (Alert.id a) (alertId quake zone))
       (loadDataCheck calculateDistance mount now quakes merged)) >= 2.
Proof.
  intros Hq Hz Hmag Hold Hin. cbv zeta. unfold loadDataCheck. simpl.
  rewrite !checkZoneAlerts_merges, app_nil_r.
  assert (Hnew : In (mkAlert quake zone)
                   (newAlertsOf calculateDistance now minAlertMag []
                      quakes zones)).
  { apply In_newAlertsOf. exists quake, zone. repeat split; assumption. }
  repeat split; try assumption.
  rewrite filter_app, length_app.
  assert (Hone : 1 <= List.length
            (filter (fun a => String.eqb (Alert.id a) (alertId quake zone))
               (newAlertsOf calculateDistance now minAlertMag []
                  quakes zones))).
  { assert (Hf : In (mkAlert quake zone)
              (filter (fun a => String.eqb (Alert.id a) (alertId quake zone))
                 (newAlertsOf calculateDistance now minAlertMag []
                    quakes zones))).
    { apply filter_In. split; [exact Hnew | apply String.eqb_refl]. }
    destruct (filter _ _); [contradiction | simpl; lia]. }
  lia.
Qed.

Lemma interval_tick_emits_again_witness :
  let mount := mountRender [Examples.dhaka] Examples.threshold in
  let merged :=
    loadDataCheck Examples.flatDistance mount Examples.now
      [Examples.fresh] [] in
  merged = [mkAlert Examples.fresh Examples.dhaka] /\
  loadDataCheck Examples.flatDistance mount Examples.now
    [Examples.fresh] merged
  = [mkAlert Examples.fresh Examples.dhaka;
     mkAlert Examples.fresh Examples.dhaka].
Proof.
  cbv zeta.
  destruct (interval_tick_emits_again Examples.flatDistance Examples.now
              Examples.threshold [Examples.fresh] [Examples.dhaka]
              Examples.fresh Examples.dhaka
              (or_introl eq_refl) (or_introl eq_refl)
              eq_refl eq_refl eq_refl) as (Hfirst & _ & Htick & _).
  split; [vm_compute; reflexivity|].
  rewrite Htick, Hfirst. vm_compute. reflexivity.
Defined.

(** The interval is handed the zones of the first render as well: after
    [deleteZone] of the only zone, its tick still raises that zone's
    alert. *)
Example interval_alerts_for_deleted_zone :
  let mount := mountRender [Examples.dhaka] Examples.threshold in
  deleteZone (Zone.id Examples.dhaka) (renderZones mount) = [] /\
  map Alert.zoneId
    (loadDataCheck Examples.flatDistance mount Examples.now
       [Examples.fresh] [])
  = [Zone.id Examples.dhaka].
Proof. cbv zeta. split; vm_compute; reflexivity. Qed.
